(** * Stremio library exporter / importer: a shallow embedding

    The Python sources [auth_extractor.py], [movie_extractor.py] and
    [library_importer.py] are embedded below.  JSON values decoded by
    [json.load] / [response.json()] / [JSON.parse] are the inductive [json];
    JSON numbers are modelled as integers ([Z]).  A Python [dict] is an
    association list: the programs iterate dicts in insertion order, so the
    order of entries matters.  Python exceptions are the constructors of
    [exc]; a computation that may raise returns [Res]. *)

From Stdlib Require Import Ascii String List ZArith Lia Permutation Bool.
Import ListNotations.
Open Scope string_scope.
Open Scope list_scope.
Set Warnings "-register-all".

(** ** Python data *)

Inductive json : Type :=
| JNull
| JBool (b : bool)
| JNum (n : Z)
| JStr (s : string)
| JList (l : list json)
| JObj (fs : list (string * json)).

Inductive exc : Type :=
| AttributeError
| TypeError
| KeyError
| ValueError (msg : string)
(** [d[i:j]] on a dict: [TypeError] (a slice is unhashable) up to Python
    3.11, [KeyError] from 3.12 on (slices are hashable, and no key of a
    decoded JSON object is a slice); the sources pin no Python version. *)
| DictSliceError
| OSError
| JSONDecodeError
| RequestException.

Inductive Res (A : Type) : Type :=
| Ok (a : A)
| Err (e : exc).
Arguments Ok {A} a.
Arguments Err {A} e.

Definition res_bind {A B} (m : Res A) (k : A -> Res B) : Res B :=
  match m with Ok a => k a | Err e => Err e end.

Notation "x <- m ;; k" := (res_bind m (fun x => k))
  (at level 61, m at next level, right associativity).

(** First entry with key [k] ([dict] keys are unique). *)
Fixpoint assoc (k : string) (fs : list (string * json)) : option json :=
  match fs with
  | [] => None
  | (k', v) :: fs' => if String.eqb k k' then Some v else assoc k fs'
  end.

Definition has_key (k : string) (fs : list (string * json)) : bool :=
  match assoc k fs with Some _ => true | None => false end.

(** Python truthiness ([bool(v)]). *)
Definition truthy (v : json) : bool :=
  match v with
  | JNull => false
  | JBool b => b
  | JNum n => negb (Z.eqb n 0)
  | JStr s => negb (String.eqb s "")
  | JList l => match l with [] => false | _ => true end
  | JObj fs => match fs with [] => false | _ => true end
  end.

(** [v.get(k, d)]: only dicts have [.get]. *)
Definition py_get (v : json) (k : string) (d : json) : Res json :=
  match v with
  | JObj fs => Ok (match assoc k fs with Some x => x | None => d end)
  | _ => Err AttributeError
  end.

(** Substring test [sub in s]. *)
Fixpoint str_contains (sub s : string) : bool :=
  String.prefix sub s ||
  match s with
  | EmptyString => false
  | String _ s' => str_contains sub s'
  end.

Definition json_eq_str (k : string) (v : json) : bool :=
  match v with JStr s => String.eqb s k | _ => false end.

(** [k in v] for a string [k]: key of a dict, element of a list,
    substring of a str; other types are not containers. *)
Definition py_contains (v : json) (k : string) : Res bool :=
  match v with
  | JObj fs => Ok (has_key k fs)
  | JList l => Ok (existsb (json_eq_str k) l)
  | JStr s => Ok (str_contains k s)
  | _ => Err TypeError
  end.

(** [v[k]] for a string [k]. *)
Definition py_getitem (v : json) (k : string) : Res json :=
  match v with
  | JObj fs => match assoc k fs with Some x => Ok x | None => Err KeyError end
  | _ => Err TypeError
  end.

(** [v > 0]: [bool] is a subclass of [int]; other types raise. *)
Definition py_gt_zero (v : json) : Res bool :=
  match v with
  | JNum n => Ok (Z.ltb 0 n)
  | JBool b => Ok b
  | _ => Err TypeError
  end.

(** [for x in v]: lists yield elements, dicts their keys, strs their
    one-character strings. *)
Definition py_iter (v : json) : Res (list json) :=
  match v with
  | JList l => Ok l
  | JObj fs => Ok (map (fun kv => JStr (fst kv)) fs)
  | JStr s => Ok (map (fun c => JStr (String c EmptyString)) (list_ascii_of_string s))
  | _ => Err TypeError
  end.

(** ** Logging and network effects *)

Inductive log_entry : Type :=
| LogParsed (n_watched n_watchlist : nat)
| LogStartRestore (total : nat)
| LogRestored (first last total : nat)
| LogBatchMayHaveFailed (batch_no : nat) (body : json)
| LogBatchFailed (start : nat) (e : exc)
| LogLoading
| LogLoaded (n : nat)
| LogBackupNotFound
| LogAuthOk
| LogRestoreCompleted (restored total : nat)
| LogRestoreFailed (e : exc)
| LogAuthFailed (e : exc).

(** Browser launch: [browsers.get(self.browser_type, playwright.chromium)]
    and the [headless] argument given to [launch]. *)
Inductive engine : Type := Chromium | Firefox | Webkit.

Record launch_call : Type := mkLaunch { launcher : engine; launch_headless : bool }.

Inductive io_event : Type :=
| NetAuthExtraction
| NetPost (url : string) (payload : json)
| BrowserLaunch (c : launch_call)
| BrowserClose.

Record world : Type := mkWorld { w_logs : list log_entry; w_net : list io_event }.

(** State and exception: an exception keeps the effects done before it. *)
Definition M (A : Type) : Type := world -> Res A * world.

Definition m_ret {A} (a : A) : M A := fun w => (Ok a, w).
Definition m_raise {A} (e : exc) : M A := fun w => (Err e, w).
Definition m_bind {A B} (m : M A) (k : A -> M B) : M B :=
  fun w => match m w with
           | (Ok a, w') => k a w'
           | (Err e, w') => (Err e, w')
           end.
Definition m_lift {A} (r : Res A) : M A := fun w => (r, w).
Definition m_log (l : log_entry) : M unit :=
  fun w => (Ok tt, mkWorld (w_logs w ++ [l]) (w_net w)).
Definition m_net (ev : io_event) : M unit :=
  fun w => (Ok tt, mkWorld (w_logs w) (w_net w ++ [ev])).
(** [try: m except Exception as e: h e] *)
Definition m_try {A} (m : M A) (h : exc -> M A) : M A :=
  fun w => match m w with
           | (Ok a, w') => (Ok a, w')
           | (Err e, w') => h e w'
           end.

Notation "x <-- m ;;; k" := (m_bind m (fun x => k))
  (at level 61, m at next level, right associativity).
Notation "m ;;;; k" := (m_bind m (fun _ => k))
  (at level 61, right associativity).

(** ** movie_extractor.py : parse_library_data *)

Record movie : Type := mkMovie {
  imdbID : json;
  Title : json;
  poster : json;
  year : json;
  item_type : json
}.

(** One iteration of the [for item in result] loop: [None] is the
    [continue] of the skip, [Some (flag, movie_data)] the categorised item
    ([flag] is [flagged_watched > 0]). *)
Definition parse_item (item : json) : Res (option (bool * movie)) :=
  imdb_id <- py_get item "_id" (JStr "") ;;
  name <- py_get item "name" (JStr "") ;;
  state <- py_get item "state" (JObj []) ;;
  flagged_watched <- py_get state "timesWatched" (JNum 0) ;;
  poster0 <- py_get item "poster" JNull ;;
  poster1 <-
    (if truthy poster0 then Ok poster0 else
     has_meta <- py_contains item "meta" ;;
     if has_meta then
       meta <- py_getitem item "meta" ;;
       has_poster <- py_contains meta "poster" ;;
       if has_poster then
         meta' <- py_getitem item "meta" ;; py_getitem meta' "poster"
       else Ok poster0
     else Ok poster0) ;;
  year0 <- py_get item "year" JNull ;;
  year1 <-
    (if truthy year0 then Ok year0 else
     has_meta <- py_contains item "meta" ;;
     if has_meta then
       meta <- py_getitem item "meta" ;; py_get meta "year" JNull
     else Ok year0) ;;
  ty <- py_get item "type" (JStr "movie") ;;
  if negb (truthy imdb_id) || negb (truthy name) then Ok None else
  let movie_data := mkMovie imdb_id name poster1 year1 ty in
  w <- py_gt_zero flagged_watched ;;
  Ok (Some (w, movie_data)).

Fixpoint parse_loop (items : list json) (watched_items watchlist_items : list movie)
  : Res (list movie * list movie) :=
  match items with
  | [] => Ok (watched_items, watchlist_items)
  | item :: rest =>
      o <- parse_item item ;;
      match o with
      | None => parse_loop rest watched_items watchlist_items
      | Some (true, m) => parse_loop rest (watched_items ++ [m]) watchlist_items
      | Some (false, m) => parse_loop rest watched_items (watchlist_items ++ [m])
      end
  end.

Definition parse_library_data (api_response : json) : M (list movie * list movie) :=
  result <-- m_lift (py_get api_response "result" (JList [])) ;;;
  items <-- m_lift (py_iter result) ;;;
  r <-- m_lift (parse_loop items [] []) ;;;
  m_log (LogParsed (length (fst r)) (length (snd r))) ;;;;
  m_ret r.

(** ** library_importer.py *)

(** [len(v)] *)
Definition py_len (v : json) : Res nat :=
  match v with
  | JList l => Ok (length l)
  | JStr s => Ok (String.length s)
  | JObj fs => Ok (length fs)
  | _ => Err TypeError
  end.

(** [v[i:j]] for [0 <= i <= j]; a dict cannot be sliced, and the other
    values are not subscriptable. *)
Definition py_slice (v : json) (i j : nat) : Res json :=
  match v with
  | JList l => Ok (JList (firstn (j - i) (skipn i l)))
  | JStr s => Ok (JStr (substring i (j - i) s))
  | JObj _ => Err DictSliceError
  | _ => Err TypeError
  end.

(** [range(i, stop, step)], [fuel] bounding the number of elements. *)
Fixpoint range_go (fuel i stop step : nat) : list nat :=
  match fuel with
  | O => []
  | S f => if Nat.ltb i stop then i :: range_go f (i + step) stop step else []
  end.

Definition py_range (start stop step : nat) : list nat :=
  range_go (stop - start) start stop step.

(** [x == True]: [True == 1] in Python. *)
Definition py_eq_true (v : json) : bool :=
  match v with
  | JBool b => b
  | JNum n => Z.eqb n 1
  | _ => false
  end.

(** What [open] / [json.load] produce. *)
Inductive backup_file : Type :=
| FileUnreadable
| FileUnparseable
| FileParsed (data : json).

Definition exc_message (e : exc) : string :=
  match e with
  | AttributeError => "AttributeError"
  | TypeError => "TypeError"
  | KeyError => "KeyError"
  | DictSliceError => "TypeError or KeyError"
  | ValueError m => m
  | OSError => "OSError"
  | JSONDecodeError => "JSONDecodeError"
  | RequestException => "RequestException"
  end.

Definition msg_invalid_backup : string :=
  "Invalid backup format. Expected list or API response dict.".

Definition load_backup (f : backup_file) : Res json :=
  let body :=
    data <- (match f with
             | FileUnreadable => Err OSError
             | FileUnparseable => Err JSONDecodeError
             | FileParsed d => Ok d
             end) ;;
    match data with
    | JObj fs => if has_key "result" fs then py_getitem data "result"
                 else Err (ValueError msg_invalid_backup)
    | JList _ => Ok data
    | _ => Err (ValueError msg_invalid_backup)
    end in
  match body with
  | Ok v => Ok v
  | Err e => Err (ValueError (String.append "Failed to load backup: " (exc_message e)))
  end.

Definition batch_size : nat := 50.

Definition datastore_put_url : string := "https://api.strem.io/api/datastorePut".

Definition restore_payload (auth_key : string) (batch : json) : json :=
  JObj [("authKey", JStr auth_key); ("collection", JStr "libraryItem"); ("changes", batch)].

(** [result.get("result") == "ok" or result.get("success") == True] *)
Definition batch_succeeded (result : json) : Res bool :=
  r <- py_get result "result" JNull ;;
  if json_eq_str "ok" r then Ok true else
  s <- py_get result "success" JNull ;;
  Ok (py_eq_true s).

Section Importer.

(** The server: for the [k]-th write call of a restore and its payload,
    the decoded body after [raise_for_status()], or the exception raised by
    [requests.post], [raise_for_status] or [response.json()]. *)
Variable net : nat -> json -> Res json.

Fixpoint restore_loop (auth_key : string) (items : json) (total_items : nat)
    (is : list nat) (success_count : nat) : M nat :=
  match is with
  | [] => m_ret success_count
  | i :: is' =>
      batch <-- m_lift (py_slice items i (i + batch_size)) ;;;
      let payload := restore_payload auth_key batch in
      sc <-- m_try
        (m_net (NetPost datastore_put_url payload) ;;;;
         result <-- m_lift (net (i / batch_size) payload) ;;;
         ok <-- m_lift (batch_succeeded result) ;;;
         if ok then
           n <-- m_lift (py_len batch) ;;;
           m_log (LogRestored (i + 1) (Nat.min (i + n) total_items) total_items) ;;;;
           m_ret (success_count + n)
         else
           m_log (LogBatchMayHaveFailed (i / batch_size + 1) result) ;;;;
           m_ret success_count)
        (fun e => m_log (LogBatchFailed i e) ;;;; m_ret success_count) ;;;
      restore_loop auth_key items total_items is' sc
  end.

Definition restore_library (auth_key : string) (items : json) : M nat :=
  total_items <-- m_lift (py_len items) ;;;
  m_log (LogStartRestore total_items) ;;;;
  restore_loop auth_key items total_items (py_range 0 total_items batch_size) 0.

(** Outcome of [extract_stremio_auth_key(headless=True)] (browser login). *)
Variable auth_result : Res string.

(** [main] of library_importer.py: [file_exists] is
    [Path(args.backup_file).exists()]; the result is the exit code. *)
Definition importer_main (file_exists : bool) (f : backup_file) : M Z :=
  if negb file_exists then m_log LogBackupNotFound ;;;; m_ret 1%Z else
  m_try
    (m_log LogLoading ;;;;
     items <-- m_lift (load_backup f) ;;;
     n <-- m_lift (py_len items) ;;;
     m_log (LogLoaded n) ;;;;
     m_net NetAuthExtraction ;;;;
     auth_key <-- m_lift auth_result ;;;
     m_log LogAuthOk ;;;;
     restored <-- restore_library auth_key items ;;;
     n' <-- m_lift (py_len items) ;;;
     m_log (LogRestoreCompleted restored n') ;;;;
     m_ret 0%Z)
    (fun e => m_log (LogRestoreFailed e) ;;;; m_ret 1%Z).

End Importer.

(** ** auth_extractor.py *)

Definition msg_no_profile : string := "Could not find profile data in localStorage".
Definition msg_no_auth : string := "No 'auth' field found in profile data".
Definition msg_no_key : string := "No 'key' field found in auth data".

(** The scan [for key, value in storage_data.items(): if isinstance(value,
    dict) and 'auth' in value: profile_data = value; break]. *)
Fixpoint find_profile (storage_data : list (string * json)) : option json :=
  match storage_data with
  | [] => None
  | (_, value) :: rest =>
      match value with
      | JObj fs => if has_key "auth" fs then Some value else find_profile rest
      | _ => find_profile rest
      end
  end.

(** [_extract_auth_key_from_storage], from the snapshot returned by
    [page.evaluate] on. *)
Definition _extract_auth_key_from_storage (storage_data : list (string * json))
  : Res json :=
  let profile_data := find_profile storage_data in
  let profile_truthy := match profile_data with Some v => truthy v | None => false end in
  if negb profile_truthy then Err (ValueError msg_no_profile) else
  let p := match profile_data with Some v => v | None => JNull end in
  has_auth <- py_contains p "auth" ;;
  if negb has_auth then Err (ValueError msg_no_auth) else
  auth_data <- py_getitem p "auth" ;;
  has_k <- py_contains auth_data "key" ;;
  if negb has_k then Err (ValueError msg_no_key) else
  py_getitem auth_data "key".

Definition engine_of (browser_type : string) : engine :=
  if String.eqb browser_type "firefox" then Firefox
  else if String.eqb browser_type "webkit" then Webkit
  else Chromium.

(** [_launch_browser]: [browser_launcher.launch(headless=True)]. *)
Definition _launch_browser (browser_type : string) (headless : bool) : launch_call :=
  mkLaunch (engine_of browser_type) true.

Section Extractor.

(** The outcome of starting Playwright and of [_launch_browser]'s
    [launch] call, which run before the [try]. *)
Variable launch : launch_call -> Res unit.

(** Everything the launched browser does before the storage read
    ([_create_page], [_navigate_and_login], the [page.evaluate] call): the
    snapshot of localStorage, or the exception it raised. *)
Variable run_page : launch_call -> Res (list (string * json)).

(** Whether [STREMIO_EMAIL] and [STREMIO_PASSWORD] are both set. *)
Variable credentials_set : bool.

Definition extract_auth_key (browser_type : string) (headless : bool) : M json :=
  fun w =>
    let cfg := _launch_browser browser_type headless in
    let body :=
      m_try
        (snapshot <-- m_lift (run_page cfg) ;;;
         m_lift (_extract_auth_key_from_storage snapshot))
        (fun e => m_log (LogAuthFailed e) ;;;; m_raise e) in
    (* the launch, outside the [try] *)
    match (m_net (BrowserLaunch cfg) ;;;; m_lift (launch cfg)) w with
    | (Err e, w1) => (Err e, w1)
    | (Ok _, w1) =>
        (* [finally: await browser.close()] *)
        let (r, w2) := body w1 in
        (r, snd (m_net BrowserClose w2))
    end.

(** [StremioAuthExtractor.__init__] (credential loading) then
    [extract_auth_key(headless=headless)]. *)
Definition extract_stremio_auth_key (headless : bool) (browser_type : string) : M json :=
  if credentials_set then extract_auth_key browser_type headless
  else m_raise (ValueError "Please set STREMIO_EMAIL and STREMIO_PASSWORD in your .env file").

End Extractor.

(** ** A state-and-exception monad over any state *)

Definition SM (S A : Type) : Type := S -> Res A * S.

Definition sm_ret {S A} (a : A) : SM S A := fun s => (Ok a, s).
Definition sm_raise {S A} (e : exc) : SM S A := fun s => (Err e, s).
Definition sm_bind {S A B} (m : SM S A) (k : A -> SM S B) : SM S B :=
  fun s => match m s with
           | (Ok a, s') => k a s'
           | (Err e, s') => (Err e, s')
           end.
Definition sm_lift {S A} (r : Res A) : SM S A := fun s => (r, s).
Definition sm_try {S A} (m : SM S A) (h : exc -> SM S A) : SM S A :=
  fun s => match m s with
           | (Ok a, s') => (Ok a, s')
           | (Err e, s') => h e s'
           end.

Notation "x <~ m ;~ k" := (sm_bind m (fun x => k))
  (at level 61, m at next level, right associativity).
Notation "m ;~~ k" := (sm_bind m (fun _ => k))
  (at level 61, right associativity).

(** ** movie_extractor.py : files, request and [main] *)

(** Log lines of movie_extractor.py that the properties below look at. *)
Inductive xlog : Type :=
| XLogExtracting
| XLogApiRequest
| XLogApiOk (n : nat)
| XLogApiFailed (e : exc)
| XLogFetching
| XLogNoItems (filename : string)
| XLogSavedCsv (n : nat) (filename : string)
| XLogHtmlOk (path : string)
| XLogHtmlFailed
| XLogJsonSaved (filename : string)
| XLogJsonFailed
| XLogZipCreated (filename : string)
| XLogZipFailed
| XLogCompleted
| XLogFailed (e : exc).

(** Files written in [output/] (names relative to it), and the browser
    opened on the report. A CSV is its header and its rows of cell values;
    the HTML report is recorded with the two lists it is generated from; a
    ZIP with the names of its members. *)
Inductive file_event : Type :=
| WriteCsv (filename : string) (header : list string) (rows : list (list json))
| WriteHtml (path : string) (watched watchlist : list movie)
| WriteJson (filename : string) (data : json)
| WriteZip (filename : string) (members : list string)
| OpenBrowser (path : string).

(** [x_base]: the logs and network events shared with the other modules;
    [x_dir]: the names present in [output/]. *)
Record xworld : Type := mkX {
  x_base : world;
  x_logs : list xlog;
  x_files : list file_event;
  x_dir : list string
}.

Definition XM (A : Type) : Type := SM xworld A.

Definition x_log (l : xlog) : XM unit :=
  fun s => (Ok tt, mkX (x_base s) (x_logs s ++ [l]) (x_files s) (x_dir s)).
Definition x_file (ev : file_event) : XM unit :=
  fun s => (Ok tt, mkX (x_base s) (x_logs s) (x_files s ++ [ev]) (x_dir s)).
(** [open(name, 'w')] creates the file when it is not there yet. *)
Definition dir_add (name : string) (dir : list string) : list string :=
  if existsb (String.eqb name) dir then dir else dir ++ [name].
Definition x_create (name : string) : XM unit :=
  fun s => (Ok tt, mkX (x_base s) (x_logs s) (x_files s) (dir_add name (x_dir s))).
Definition x_dir_get : XM (list string) := fun s => (Ok (x_dir s), s).
(** Run a computation of the other modules on the shared part. *)
Definition x_run {A} (m : M A) : XM A :=
  fun s => let (r, w') := m (x_base s) in (r, mkX w' (x_logs s) (x_files s) (x_dir s)).

Definition datastore_get_url : string := "https://api.strem.io/api/datastoreGet".

Definition api_payload (auth_key : json) : json :=
  JObj [("all", JBool true); ("authKey", auth_key); ("collection", JStr "libraryItem")].

Definition csv_fieldnames : list string := ["imdbID"; "Title"; "year"; "type"; "poster"].

(** [writer.writerow(item)] on a [movie_data] dict, in [fieldnames] order. *)
Definition csv_row (m : movie) : list json :=
  [imdbID m; Title m; year m; item_type m; poster m].

(** [Path.suffix]: from the last dot of the name, unless that dot is the
    first or the last character. *)
Fixpoint rfind_dot (s : string) (i : nat) (acc : option nat) : option nat :=
  match s with
  | EmptyString => acc
  | String c s' => rfind_dot s' (S i) (if Ascii.eqb c "."%char then Some i else acc)
  end.

Definition path_suffix (name : string) : string :=
  match rfind_dot name 0 None with
  | Some i => if Nat.ltb 0 i && Nat.ltb i (String.length name - 1)
              then substring i (String.length name - i) name else ""
  | None => ""
  end.

Section Exporter.

(** The server's answer to the [datastoreGet] request: the decoded body
    after [raise_for_status()], or the exception raised. *)
Variable api : json -> Res json.

(** Whether [open(name, 'w')] succeeds in [output/]. *)
Variable can_write : string -> bool.

(** Whether [zipf.write] can read the file [name] of [output/]. *)
Variable can_read : string -> bool.

Definition make_api_request (auth_key : json) : XM json :=
  x_log XLogApiRequest ;~~
  sm_try
    (x_run (m_net (NetPost datastore_get_url (api_payload auth_key))) ;~~
     data <~ sm_lift (api (api_payload auth_key)) ;~
     result <~ sm_lift (py_get data "result" (JList [])) ;~
     n <~ sm_lift (py_len result) ;~
     x_log (XLogApiOk n) ;~~
     sm_ret data)
    (fun e =>
       match e with
       (* [requests]' JSONDecodeError is a RequestException *)
       | RequestException | JSONDecodeError => x_log (XLogApiFailed e) ;~~ sm_raise e
       | _ => sm_raise e
       end).

Definition save_to_csv (items : list movie) (filename : string) : XM unit :=
  match items with
  | [] => x_log (XLogNoItems filename)
  | _ =>
      if can_write filename then
        x_create filename ;~~
        x_file (WriteCsv filename csv_fieldnames (map csv_row items)) ;~~
        x_log (XLogSavedCsv (length items) filename)
      else sm_raise OSError
  end.

(** [generate_html] of html_generator.py: the page is built first, then
    written inside [try]; any failure of the write gives [False]. *)
Definition generate_html (watched_items watchlist_items : list movie) (output_path : string)
  : XM bool :=
  if can_write output_path then
    x_create output_path ;~~
    x_file (WriteHtml output_path watched_items watchlist_items) ;~~
    x_log (XLogHtmlOk output_path) ;~~
    sm_ret true
  else x_log XLogHtmlFailed ;~~ sm_ret false.

Definition save_json_backup (data : json) (filename : string) : XM unit :=
  if can_write filename then
    x_create filename ;~~
    x_file (WriteJson filename data) ;~~
    x_log (XLogJsonSaved filename)
  else x_log XLogJsonFailed.

(** The [zipf.write(path, arcname)] calls in turn: the names written
    before the first file that cannot be read, and whether all were. *)
Fixpoint zip_write_all (entries : list (string * string)) : list string * bool :=
  match entries with
  | [] => ([], true)
  | (path, arcname) :: rest =>
      if can_read path then
        let (written, ok) := zip_write_all rest in (arcname :: written, ok)
      else ([], false)
  end.

(** [create_backup_zip]: opening the archive creates it; then the names
    matching [*{timestamp}*] whose suffix is not [.zip], then the raw backup
    under a timestamped name when it exists. A member that cannot be read
    raises inside the [with] block, which closes the archive with the
    members written so far; the [except] logs and returns [None]. *)
Definition create_backup_zip (timestamp : string) : XM (option string) :=
  let zip_filename := ("stremio_library_backup_" ++ timestamp ++ ".zip")%string in
  if can_write zip_filename then
    x_create zip_filename ;~~
    dir <~ x_dir_get ;~
    let globbed := filter (fun n => str_contains timestamp n) dir in
    let members := filter (fun n => negb (String.eqb (path_suffix n) ".zip")) globbed in
    let raw := if existsb (String.eqb "library_backup.json") dir
               then [("library_backup.json", ("library_backup_" ++ timestamp ++ ".json")%string)]
               else [] in
    let (written, ok) := zip_write_all (map (fun n => (n, n)) members ++ raw) in
    x_file (WriteZip zip_filename written) ;~~
    if ok then
      x_log (XLogZipCreated zip_filename) ;~~
      sm_ret (Some zip_filename)
    else x_log XLogZipFailed ;~~ sm_ret None
  else x_log XLogZipFailed ;~~ sm_ret None.

(** The outcome of [extract_stremio_auth_key(headless=True)]. *)
Variable auth_result : Res json.

(** Whether [output_dir.mkdir(exist_ok=True)] succeeds. *)
Variable mkdir_ok : bool.

(** [datetime.now().strftime("%Y%m%d_%H%M%S")]. *)
Variable timestamp : string.

Definition watched_csv : string := ("watched_api_" ++ timestamp ++ ".csv")%string.
Definition watchlist_csv : string := ("watchlist_api_" ++ timestamp ++ ".csv")%string.
Definition html_file : string := ("stremio_library_" ++ timestamp ++ ".html")%string.

(** Steps 1 to 3 of [main]: token, request, parse. *)
Definition export_fetch : XM (json * (list movie * list movie)) :=
  x_log XLogExtracting ;~~
  x_run (m_net NetAuthExtraction) ;~~
  auth_key <~ sm_lift auth_result ;~
  _ <~ sm_lift (py_slice auth_key 0 20) ;~
  x_log XLogFetching ;~~
  api_response <~ make_api_request auth_key ;~
  r <~ x_run (parse_library_data api_response) ;~
  sm_ret (api_response, r).

(** Steps 4 to 9 of [main]: directory, files, report. *)
Definition export_write (api_response : json) (watched_items watchlist_items : list movie)
  : XM Z :=
  (if mkdir_ok then sm_ret tt else sm_raise OSError) ;~~
  save_to_csv watched_items watched_csv ;~~
  save_to_csv watchlist_items watchlist_csv ;~~
  _ <~ generate_html watched_items watchlist_items html_file ;~
  save_json_backup api_response "library_backup.json" ;~~
  _ <~ create_backup_zip timestamp ;~
  x_file (OpenBrowser html_file) ;~~
  x_log XLogCompleted ;~~
  sm_ret 0%Z.

Definition exporter_main : XM Z :=
  sm_try
    (r <~ export_fetch ;~ export_write (fst r) (fst (snd r)) (snd (snd r)))
    (fun e => x_log (XLogFailed e) ;~~ sm_ret 1%Z).

End Exporter.

(** ** auth_extractor.py : navigation and login *)

(** Errors raised by Playwright calls ([TimeoutError] and the others). *)
Inductive pw_error : Type := PwTimeoutError | PwError (msg : string).

Inductive PRes (A : Type) : Type := POk (a : A) | PErr (e : pw_error).
Arguments POk {A} a.
Arguments PErr {A} e.

(** Page calls; [PWaitSelector sel state timeout] has [None] for an
    argument left to Playwright's default; [PClick sel] clicks the element
    the preceding wait for [sel] returned. *)
Inductive page_op : Type :=
| PGoto (url wait_until : string)
| PWaitSelector (sel : string) (state : option string) (timeout : option N)
| PQuery (sel : string)
| PClick (sel : string)
| PWaitTimeout (ms : N)
| PFill (sel value : string)
| PWaitLoadState (state : string).

Inductive login_log : Type :=
| LNavigating | LLoginRequired | LAlreadyLoggedIn | LWaitingCompletion
| LFormDisappeared | LFormMaybeVisible.

Inductive page_event : Type := PageOp (o : page_op) | PageLog (l : login_log).

Definition PM (A : Type) : Type := list page_event -> PRes A * list page_event.

Definition p_ret {A} (a : A) : PM A := fun t => (POk a, t).
Definition p_bind {A B} (m : PM A) (k : A -> PM B) : PM B :=
  fun t => match m t with
           | (POk a, t') => k a t'
           | (PErr e, t') => (PErr e, t')
           end.
Definition p_log (l : login_log) : PM unit := fun t => (POk tt, t ++ [PageLog l]).
(** [try: m except: h] (a bare [except]). *)
Definition p_try {A} (m : PM A) (h : pw_error -> PM A) : PM A :=
  fun t => match m t with
           | (POk a, t') => (POk a, t')
           | (PErr e, t') => h e t'
           end.

Notation "x <+ m ;+ k" := (p_bind m (fun x => k))
  (at level 61, m at next level, right associativity).
Notation "m ;++ k" := (p_bind m (fun _ => k))
  (at level 61, right associativity).

Definition dq : string := String "034"%char EmptyString.

Definition login_url : string := "https://web.stremio.com/#/intro?form=login".
Definition sel_login_text : string := ("div:has-text(" ++ dq ++ "Log in" ++ dq ++ ")")%string.
Definition sel_login_or_library : string :=
  (sel_login_text ++ ", a[href*=" ++ dq ++ "library" ++ dq ++ "]")%string.
Definition sel_login_button : string :=
  ("div.form-button-vyqqj:has-text(" ++ dq ++ "Log in" ++ dq ++ ")")%string.
Definition sel_email : string := ("input[placeholder=" ++ dq ++ "E-mail" ++ dq ++ "]")%string.
Definition sel_password : string := ("input[placeholder=" ++ dq ++ "Password" ++ dq ++ "]")%string.

Section Login.

(** The page: its answer to a call, given the events so far ([true] when a
    query finds an element), or the error the call raises. *)
Variable page : list page_event -> page_op -> PRes bool.

Variables email password : string.

Definition p_op (o : page_op) : PM bool := fun t => (page t o, t ++ [PageOp o]).

Definition _fill_credentials : PM unit :=
  p_op (PWaitSelector sel_email None None) ;++
  p_op (PFill sel_email email) ;++
  p_op (PWaitSelector sel_password None None) ;++
  p_op (PFill sel_password password) ;++
  p_ret tt.

Definition hidden_wait : page_op := PWaitSelector sel_login_button (Some "hidden") (Some 10000%N).

Definition _perform_login : PM unit :=
  p_op (PWaitSelector sel_login_button None None) ;++
  p_op (PClick sel_login_button) ;++
  p_op (PWaitTimeout 2000%N) ;++
  _fill_credentials ;++
  p_op (PWaitSelector sel_login_button None None) ;++
  p_op (PClick sel_login_button) ;++
  p_log LWaitingCompletion ;++
  p_try (p_op hidden_wait ;++ p_log LFormDisappeared)
        (fun _ => p_log LFormMaybeVisible) ;++
  p_op (PWaitLoadState "networkidle") ;++
  p_ret tt.

Definition _navigate_and_login : PM unit :=
  p_log LNavigating ;++
  p_op (PGoto login_url "networkidle") ;++
  p_op (PWaitSelector sel_login_or_library None (Some 30000%N)) ;++
  found <+ p_op (PQuery sel_login_text) ;+
  if found then p_log LLoginRequired ;++ _perform_login
  else p_log LAlreadyLoggedIn.

End Login.

(** ** html_generator.py : [_generate_grid_items] *)

Definition nl : string := String "010"%char EmptyString.

(** The clapper-board glyph as the source file stores it (UTF-8 bytes). *)
Definition clapper_glyph : string :=
  string_of_list_ascii (map ascii_of_nat [239; 163; 191; 195; 188; 195; 169; 194; 168]).

(** The arrow after "IMDb", likewise. *)
Definition arrow_glyph : string :=
  string_of_list_ascii (map ascii_of_nat [226; 128; 154; 195; 156; 195; 179]).

Section Grid.

Local Open Scope string_scope.

(** [str(v)], which the f-strings apply to each inserted value. *)
Variable py_str : json -> string.

Definition poster_html (poster title : json) : string :=
  if truthy poster then
    "<img src=" ++ dq ++ py_str poster ++ dq ++ " class=" ++ dq ++ "poster-img" ++ dq ++
    " alt=" ++ dq ++ py_str title ++ dq ++ " onerror=" ++ dq ++
    "this.style.display='none'; this.nextElementSibling.style.display='flex'" ++ dq ++ ">" ++
    "<div class=" ++ dq ++ "fallback-poster" ++ dq ++ " style=" ++ dq ++ "display:none" ++ dq ++
    "><span>" ++ clapper_glyph ++ "</span></div>"
  else
    "<div class=" ++ dq ++ "fallback-poster" ++ dq ++ "><span>" ++ clapper_glyph ++ "</span></div>".

Definition grid_card (poster title year imdb_id type_ : json) : string :=
  nl ++ "        <div class=" ++ dq ++ "movie-card" ++ dq ++
  " data-title=" ++ dq ++ py_str title ++ dq ++ ">" ++ nl ++
  "            <div class=" ++ dq ++ "poster-container" ++ dq ++ ">" ++ nl ++
  "                " ++ poster_html poster title ++ nl ++
  "            </div>" ++ nl ++
  "            <div class=" ++ dq ++ "card-content" ++ dq ++ ">" ++ nl ++
  "                <h3 class=" ++ dq ++ "movie-title" ++ dq ++ " title=" ++ dq ++ py_str title ++
  dq ++ ">" ++ py_str title ++ "</h3>" ++ nl ++
  "                <div class=" ++ dq ++ "movie-meta" ++ dq ++ ">" ++ nl ++
  "                    <span>" ++ py_str year ++ "</span>" ++ nl ++
  "                    <span class=" ++ dq ++ "type-badge" ++ dq ++ ">" ++ py_str type_ ++
  "</span>" ++ nl ++
  "                </div>" ++ nl ++
  "                <div class=" ++ dq ++ "links" ++ dq ++ ">" ++ nl ++
  "                    <a href=" ++ dq ++ "https://www.imdb.com/title/" ++ py_str imdb_id ++ dq ++
  " target=" ++ dq ++ "_blank" ++ dq ++ " class=" ++ dq ++ "imdb-link" ++ dq ++ ">IMDb " ++
  arrow_glyph ++ "</a>" ++ nl ++
  "                </div>" ++ nl ++
  "            </div>" ++ nl ++
  "        </div>" ++ nl ++
  "        ".

Fixpoint grid_loop (items : list json) (html : string) : Res string :=
  match items with
  | [] => Ok html
  | item :: rest =>
      poster <- py_get item "poster" JNull ;;
      title <- py_get item "Title" (JStr "Unknown") ;;
      year <- py_get item "year" (JStr "") ;;
      imdb_id <- py_get item "imdbID" (JStr "") ;;
      type_ <- py_get item "type" (JStr "movie") ;;
      grid_loop rest (html ++ grid_card poster title year imdb_id type_)
  end.

Definition _generate_grid_items (items : list json) : Res string := grid_loop items "".

End Grid.

(** The [movie_data] dict built by [parse_library_data]. *)
Definition movie_dict (m : movie) : json :=
  JObj [("imdbID", imdbID m); ("Title", Title m); ("poster", poster m);
        ("year", year m); ("type", item_type m)].

(** ** Reading of the claims *)

(** The items kept by the loop of [parse_library_data], in input order,
    each with its [flagged_watched > 0] flag. *)
Fixpoint retained (items : list json) : Res (list (bool * movie)) :=
  match items with
  | [] => Ok []
  | item :: rest =>
      o <- parse_item item ;;
      ks <- retained rest ;;
      Ok (match o with Some p => p :: ks | None => ks end)
  end.

Definition retained_of (api_response : json) : Res (list (bool * movie)) :=
  result <- py_get api_response "result" (JList []) ;;
  items <- py_iter result ;;
  retained items.

(** The times-watched counter of a raw item as the spec reads it: an absent
    [state] or absent [timesWatched] counts 0 ([True] counts 1). *)
Definition times_watched (item : json) : Z :=
  match item with
  | JObj fs =>
      match assoc "state" fs with
      | Some (JObj st) =>
          match assoc "timesWatched" st with
          | Some (JNum n) => n
          | Some (JBool true) => 1%Z
          | _ => 0%Z
          end
      | _ => 0%Z
      end
  | _ => 0%Z
  end.

Definition missing_or_empty (o : option json) : Prop :=
  o = None \/ o = Some (JStr "") \/ o = Some JNull.

(** A raw record whose [_id] or whose [name] is missing or empty. *)
Definition lacks_id_or_name (item : json) : Prop :=
  exists fs, item = JObj fs /\
    (missing_or_empty (assoc "_id" fs) \/ missing_or_empty (assoc "name" fs)).

(** [state] absent or a mapping, [meta] absent or a mapping. *)
Definition well_shaped (item : json) : Prop :=
  exists fs, item = JObj fs /\
    (assoc "state" fs = None \/ exists st, assoc "state" fs = Some (JObj st)) /\
    (assoc "meta" fs = None \/ exists mf, assoc "meta" fs = Some (JObj mf)).

(** Field lookups of a record that run before the skip test and raise,
    read from the amended C4: a [state] that is present and not a mapping;
    a [meta] that is present, not a mapping, and read, which happens when
    [year] is falsy ([meta.get]) and when [poster] is falsy ([in], then
    [meta['poster']], harmless only for a str or list without ["poster"]). *)
Definition meta_poster_lookup_raises (m : json) : bool :=
  match m with
  | JObj _ => false
  | JStr s => str_contains "poster" s
  | JList l => existsb (json_eq_str "poster") l
  | _ => true
  end.

Definition is_mapping (v : json) : bool := match v with JObj _ => true | _ => false end.

Definition dropped_record_raises (item : json) : bool :=
  match item with
  | JObj fs =>
      match assoc "state" fs with Some st => negb (is_mapping st) | None => false end ||
      match assoc "meta" fs with
      | Some m =>
          (negb (truthy (match assoc "poster" fs with Some x => x | None => JNull end)) &&
           meta_poster_lookup_raises m) ||
          (negb (truthy (match assoc "year" fs with Some x => x | None => JNull end)) &&
           negb (is_mapping m))
      | None => false
      end
  | _ => true
  end.

(** A small record [{"_id": id, "name": name, "state": state}]. *)
Definition raw_item (id name : string) (state : option json) : json :=
  JObj ([("_id", JStr id); ("name", JStr name)] ++
        match state with Some s => [("state", s)] | None => [] end).

Definition library (items : list json) : json := JObj [("result", JList items)].

Definition canonical (id name : string) : movie :=
  mkMovie (JStr id) (JStr name) JNull JNull (JStr "movie").

(** ** Lemmas on the normalizer *)

Lemma parse_loop_retained : forall items w0 wl0,
  parse_loop items w0 wl0 =
  res_bind (retained items) (fun ks =>
    Ok (w0 ++ map snd (filter fst ks),
        wl0 ++ map snd (filter (fun p => negb (fst p)) ks))).
Proof.
  induction items as [|item rest IH]; intros w0 wl0; simpl.
  - rewrite !app_nil_r. reflexivity.
  - destruct (parse_item item) as [o|e]; simpl; [|reflexivity].
    destruct o as [[[|] m]|]; rewrite IH;
      destruct (retained rest) as [ks|e]; simpl; try reflexivity;
      rewrite <- !app_assoc; reflexivity.
Qed.

Definition parse_pure (api_response : json) : Res (list movie * list movie) :=
  result <- py_get api_response "result" (JList []) ;;
  items <- py_iter result ;;
  parse_loop items [] [].

Lemma parse_library_data_pure : forall resp w,
  parse_library_data resp w =
  match parse_pure resp with
  | Ok r => (Ok r, mkWorld (w_logs w ++ [LogParsed (length (fst r)) (length (snd r))]) (w_net w))
  | Err e => (Err e, w)
  end.
Proof.
  intros resp w. unfold parse_library_data, parse_pure, m_bind, m_lift, m_log, m_ret.
  destruct (py_get resp "result" (JList [])) as [result|e]; simpl; [|reflexivity].
  destruct (py_iter result) as [items|e]; simpl; [|reflexivity].
  destruct (parse_loop items [] []) as [r|e]; reflexivity.
Qed.

Lemma parse_pure_retained : forall resp,
  parse_pure resp =
  res_bind (retained_of resp) (fun ks =>
    Ok (map snd (filter fst ks), map snd (filter (fun p => negb (fst p)) ks))).
Proof.
  intros resp. unfold parse_pure, retained_of.
  destruct (py_get resp "result" (JList [])) as [result|e]; simpl; [|reflexivity].
  destruct (py_iter result) as [items|e]; simpl; [|reflexivity].
  rewrite parse_loop_retained. reflexivity.
Qed.

Lemma filter_partition_length {A} (f : A -> bool) (l : list A) :
  length (filter f l) + length (filter (fun x => negb (f x)) l) = length l.
Proof.
  induction l as [|x l IH]; simpl; [reflexivity|].
  destruct (f x); simpl; lia.
Qed.

Lemma filter_partition_perm {A} (f : A -> bool) (l : list A) :
  Permutation (filter f l ++ filter (fun x => negb (f x)) l) l.
Proof.
  induction l as [|x l IH]; simpl; [constructor|].
  destruct (f x); simpl.
  - constructor. exact IH.
  - apply Permutation_sym, Permutation_cons_app, Permutation_sym, IH.
Qed.

(** Case split on every [Ok]/[Err], [option] and [bool] scrutinee of a
    hypothesis. *)
Ltac res_cases H :=
  repeat match type of H with
  | context [match ?x with Ok _ => _ | Err _ => _ end] =>
      let E := fresh "E" in destruct x eqn:E; try discriminate H
  | context [match ?x with Some _ => _ | None => _ end] =>
      let E := fresh "E" in destruct x eqn:E; try discriminate H
  | context [if ?b then _ else _] =>
      let E := fresh "E" in destruct b eqn:E; try discriminate H
  end.

Lemma flag_times_watched : forall fs a b,
  py_get (match assoc "state" fs with Some x => x | None => JObj [] end)
         "timesWatched" (JNum 0) = Ok a ->
  py_gt_zero a = Ok b ->
  b = Z.ltb 0 (times_watched (JObj fs)).
Proof.
  intros fs a b Ha Hb. unfold times_watched.
  destruct (assoc "state" fs) as [x|].
  - destruct x as [| | | | |st]; try discriminate Ha.
    simpl in Ha. injection Ha as <-.
    destruct (assoc "timesWatched" st) as [[| [|] | n | | |]|];
      simpl in Hb; try discriminate Hb; injection Hb as <-; reflexivity.
  - simpl in Ha. injection Ha as <-. simpl in Hb. injection Hb as <-. reflexivity.
Qed.

Lemma parse_item_some_inv : forall item b m,
  parse_item item = Ok (Some (b, m)) ->
  exists fs, item = JObj fs /\
    truthy (imdbID m) = true /\ truthy (Title m) = true /\
    imdbID m = match assoc "_id" fs with Some x => x | None => JStr "" end /\
    Title m = match assoc "name" fs with Some x => x | None => JStr "" end /\
    b = Z.ltb 0 (times_watched item).
Proof.
  intros item b m H.
  destruct item as [| | | | |fs]; try discriminate H.
  exists fs. unfold parse_item, res_bind in H. cbn [py_get] in H.
  res_cases H.
  all: injection H as <- <-; cbn [imdbID Title].
  all: apply orb_false_iff in E6 as [Ha Hb]; apply negb_false_iff in Ha, Hb.
  all: try (simpl in Ha; discriminate Ha); try (simpl in Hb; discriminate Hb).
  all: repeat split; auto; eapply flag_times_watched; eauto.
Qed.

Definition get_or (k : string) (fs : list (string * json)) (d : json) : json :=
  match assoc k fs with Some x => x | None => d end.

Lemma lacks_skip_test : forall fs,
  lacks_id_or_name (JObj fs) ->
  negb (truthy (get_or "_id" fs (JStr ""))) || negb (truthy (get_or "name" fs (JStr ""))) = true.
Proof.
  intros fs [fs' [Heq Hmiss]]. injection Heq as <-. unfold get_or.
  destruct Hmiss as [[H|[H|H]]|[H|[H|H]]]; rewrite H; simpl;
    try reflexivity; apply orb_true_r.
Qed.

Lemma parse_item_dropped_exact : forall fs,
  lacks_id_or_name (JObj fs) ->
  match parse_item (JObj fs) with
  | Ok None => dropped_record_raises (JObj fs) = false
  | Ok (Some _) => False
  | Err _ => dropped_record_raises (JObj fs) = true
  end.
Proof.
  intros fs Hl. pose proof (lacks_skip_test fs Hl) as Hdrop. unfold get_or in Hdrop.
  unfold parse_item, dropped_record_raises, py_contains, py_getitem, has_key.
  cbn [py_get res_bind].
  destruct (assoc "state" fs) as [[| | | | |st]|]; cbn [py_get res_bind is_mapping negb orb];
    try reflexivity;
  destruct (truthy (match assoc "poster" fs with Some x => x | None => JNull end));
    cbn [res_bind negb andb orb];
  destruct (truthy (match assoc "year" fs with Some x => x | None => JNull end));
    cbn [res_bind negb andb orb];
  destruct (assoc "meta" fs) as [[| | |s|l|mf]|];
    cbn [py_get py_contains py_getitem res_bind negb andb orb is_mapping meta_poster_lookup_raises];
    try reflexivity;
  try (destruct (str_contains "poster" s); cbn [res_bind py_getitem]; try reflexivity);
  try (destruct (existsb (json_eq_str "poster") l); cbn [res_bind py_getitem]; try reflexivity);
  try (destruct (assoc "poster" mf); cbn [res_bind py_getitem py_get]);
  rewrite ?Hdrop; reflexivity.
Qed.

Lemma retained_err : forall items item e,
  In item items -> parse_item item = Err e -> exists e', retained items = Err e'.
Proof.
  induction items as [|it rest IH]; intros item e Hin He; [destruct Hin|].
  simpl. destruct Hin as [<-|Hin].
  - rewrite He. exists e. reflexivity.
  - destruct (parse_item it) as [o|e0]; simpl; [|exists e0; reflexivity].
    destruct (IH item e Hin He) as [e' He']. rewrite He'. exists e'. reflexivity.
Qed.

Lemma retained_in : forall items ks p,
  retained items = Ok ks -> In p ks ->
  exists item, In item items /\ parse_item item = Ok (Some p).
Proof.
  induction items as [|item rest IH]; intros ks p H Hin; simpl in H.
  - injection H as <-. destruct Hin.
  - destruct (parse_item item) as [o|e] eqn:Ei; [|discriminate H]. simpl in H.
    destruct (retained rest) as [ks'|e] eqn:Er; [|discriminate H]. simpl in H.
    injection H as <-.
    destruct o as [q|].
    + destruct Hin as [<-|Hin].
      * exists item. split; [left; reflexivity|exact Ei].
      * destruct (IH ks' p eq_refl Hin) as [it [Hit Hp]].
        exists it. split; [right; exact Hit|exact Hp].
    + destruct (IH ks' p eq_refl Hin) as [it [Hit Hp]].
      exists it. split; [right; exact Hit|exact Hp].
Qed.

Lemma parse_library_data_ok : forall resp w wt wl w',
  parse_library_data resp w = (Ok (wt, wl), w') ->
  exists ks, retained_of resp = Ok ks /\
    wt = map snd (filter fst ks) /\
    wl = map snd (filter (fun p => negb (fst p)) ks).
Proof.
  intros resp w wt wl w' H.
  rewrite parse_library_data_pure, parse_pure_retained in H.
  destruct (retained_of resp) as [ks|e]; simpl in H; [|discriminate H].
  injection H as <- <- _. exists ks. auto.
Qed.

Lemma parse_library_data_singleton : forall item b m w,
  parse_item item = Ok (Some (b, m)) ->
  fst (parse_library_data (library [item]) w) =
  Ok (if b then ([m], []) else ([], [m])).
Proof.
  intros item b m w H. rewrite parse_library_data_pure.
  unfold parse_pure, library. cbn [py_get assoc String.eqb res_bind py_iter].
  simpl. rewrite H. destruct b; reflexivity.
Qed.

(** ** The normalizer claims *)

(** C3: a retained item goes to the watched partition exactly when its
    times-watched counter is strictly positive ([state] or [timesWatched]
    absent counting 0); with a non-empty id and name, [timesWatched = 0],
    an empty [state] and an absent [state] put the item in the watchlist and
    [timesWatched = 1] in the watched list. *)
Theorem watched_iff_positive_counter :
  (forall item b m w,
     parse_item item = Ok (Some (b, m)) ->
     b = Z.ltb 0 (times_watched item) /\
     fst (parse_library_data (library [item]) w) =
       Ok (if Z.ltb 0 (times_watched item) then ([m], []) else ([], [m]))) /\
  (forall id name w, id <> "" -> name <> "" ->
     fst (parse_library_data
            (library [raw_item id name (Some (JObj [("timesWatched", JNum 0)]))]) w)
       = Ok ([], [canonical id name]) /\
     fst (parse_library_data
            (library [raw_item id name (Some (JObj [("timesWatched", JNum 1)]))]) w)
       = Ok ([canonical id name], []) /\
     fst (parse_library_data (library [raw_item id name (Some (JObj []))]) w)
       = Ok ([], [canonical id name]) /\
     fst (parse_library_data (library [raw_item id name None]) w)
       = Ok ([], [canonical id name])).
Proof.
  split.
  - intros item b m w H.
    destruct (parse_item_some_inv item b m H) as [fs [_ [_ [_ [_ [_ Hb]]]]]].
    subst b. split; [reflexivity|]. apply parse_library_data_singleton. exact H.
  - intros id name w Hid Hname.
    apply String.eqb_neq in Hid, Hname.
    repeat split; rewrite parse_library_data_pure; unfold parse_pure, library;
      unfold raw_item; simpl; unfold parse_item; simpl; rewrite Hid, Hname; reflexivity.
Qed.

(** The end-to-end response of the spec (section 8, property 8). *)
Definition spec_example_response : json :=
  library [raw_item "tt001" "A" (Some (JObj [("timesWatched", JNum 2)]));
           raw_item "tt002" "B" (Some (JObj [("timesWatched", JNum 0)]));
           raw_item "" "C" (Some (JObj []))].

Definition empty_world : world := mkWorld [] [].

(** Witness of C3 on [{"_id": "tt001", "name": "A", "state": {"timesWatched": 2}}]. *)
Lemma watched_iff_positive_counter_witness :
  parse_item (raw_item "tt001" "A" (Some (JObj [("timesWatched", JNum 2)])))
    = Ok (Some (true, canonical "tt001" "A")) /\
  fst (parse_library_data
         (library [raw_item "tt001" "A" (Some (JObj [("timesWatched", JNum 2)]))]) empty_world)
    = Ok ([canonical "tt001" "A"], []) /\
  fst (parse_library_data (library [raw_item "tt002" "B" None]) empty_world)
    = Ok ([], [canonical "tt002" "B"]).
Proof.
  split; [reflexivity|].
  destruct watched_iff_positive_counter as [Hgen Hcases].
  split.
  - exact (proj2 (Hgen (raw_item "tt001" "A" (Some (JObj [("timesWatched", JNum 2)])))
                       true (canonical "tt001" "A") empty_world eq_refl)).
  - destruct (Hcases "tt002" "B" empty_world) as [_ [_ [_ H]]];
      [discriminate | discriminate | exact H].
Defined.

(** C4 (counterexample): a record with an empty [_id] is not always dropped
    silently: with [state] equal to [null], [state.get('timesWatched', 0)],
    evaluated before the skip test, raises [AttributeError] and the whole
    normalization fails. *)
Lemma dropped_record_raises_counterexample :
  parse_library_data
    (library [JObj [("_id", JStr ""); ("name", JStr "C"); ("state", JNull)]]) empty_world
  = (Err AttributeError, empty_world).
Proof. reflexivity. Qed.

(** C4 (amended): a record whose [_id] or [name] is missing or empty is
    never categorised: it is skipped without error exactly when none of the
    lookups run before the skip test raises ([dropped_record_raises]: a
    [state] present and not a mapping, or a [meta] present, not a mapping,
    and read because [year] is falsy, or because [poster] is falsy and
    [meta] is neither a str nor a list without ["poster"]), and otherwise
    raises, failing the normalization of any list that holds it; every item
    of either output partition has a non-empty id and title. *)
Theorem dropped_records_absent :
  (forall item, lacks_id_or_name item ->
     (forall r, parse_item item <> Ok (Some r)) /\
     (dropped_record_raises item = false -> parse_item item = Ok None) /\
     (dropped_record_raises item = true -> exists e, parse_item item = Err e) /\
     (forall items w, In item items -> dropped_record_raises item = true ->
        exists e, fst (parse_library_data (library items) w) = Err e)) /\
  (forall resp w wt wl w',
     parse_library_data resp w = (Ok (wt, wl), w') ->
     forall m, In m (wt ++ wl) -> truthy (imdbID m) = true /\ truthy (Title m) = true).
Proof.
  split.
  - intros item Hl.
    assert (Hx := Hl). destruct Hx as [fs [-> _]].
    pose proof (parse_item_dropped_exact fs Hl) as Hx.
    assert (Herr : dropped_record_raises (JObj fs) = true ->
                   exists e, parse_item (JObj fs) = Err e).
    { intros Hd. destruct (parse_item (JObj fs)) as [[r|]|e].
      - contradiction.
      - rewrite Hx in Hd. discriminate Hd.
      - exists e. reflexivity. }
    split; [|split; [|split]].
    + intros r Hp. rewrite Hp in Hx. exact Hx.
    + intros Hd. destruct (parse_item (JObj fs)) as [[r|]|e].
      * contradiction.
      * reflexivity.
      * rewrite Hx in Hd. discriminate Hd.
    + exact Herr.
    + intros items w Hin Hd. destruct (Herr Hd) as [e He].
      destruct (retained_err items (JObj fs) e Hin He) as [e' He'].
      exists e'. rewrite parse_library_data_pure, parse_pure_retained.
      unfold retained_of, library. cbn [py_get assoc String.eqb res_bind py_iter].
      simpl. rewrite He'. reflexivity.
  - intros resp w wt wl w' H m Hin.
    destruct (parse_library_data_ok resp w wt wl w' H) as [ks [Hks [-> ->]]].
    assert (Hk : exists b, In (b, m) ks).
    { apply in_app_or in Hin as [Hin|Hin]; apply in_map_iff in Hin as [[b m'] [Hm Hin]];
        simpl in Hm; subst m'; exists b; apply filter_In in Hin; tauto. }
    destruct Hk as [b Hk].
    unfold retained_of in Hks.
    destruct (py_get resp "result" (JList [])) as [result|e]; [|discriminate Hks].
    simpl in Hks. destruct (py_iter result) as [items|e]; [|discriminate Hks].
    simpl in Hks.
    destruct (retained_in items ks (b, m) Hks Hk) as [item [_ Hp]].
    destruct (parse_item_some_inv item b m Hp) as [fs [_ [Hi [Ht _]]]].
    split; assumption.
Qed.

(** The two records that are skipped although their [meta] is not a
    mapping, and one whose string [meta] holds ["poster"]. *)
Definition meta_str_record : json :=
  JObj [("_id", JStr ""); ("name", JStr "C"); ("year", JNum 1); ("meta", JStr "xyz")].
Definition meta_num_record : json :=
  JObj [("_id", JStr ""); ("name", JStr "C"); ("poster", JStr "p"); ("year", JNum 1);
        ("meta", JNum 5)].
Definition meta_poster_record : json :=
  JObj [("_id", JStr ""); ("name", JStr "C"); ("year", JNum 1); ("meta", JStr "poster")].

Lemma lacks_empty_id : forall item,
  match item with JObj fs => assoc "_id" fs = Some (JStr "") | _ => False end ->
  lacks_id_or_name item.
Proof.
  intros [| | | | |fs] H; try contradiction.
  exists fs. split; [reflexivity|]. left. right. left. exact H.
Qed.

(** Witness of C4: the spec's item ["C"] and the two records with a
    non-mapping [meta] are skipped, the record with [meta = "poster"]
    raises and fails the whole list, and the spec's output items have ids
    and titles. *)
Lemma dropped_records_absent_witness :
  parse_item (raw_item "" "C" (Some (JObj []))) = Ok None /\
  parse_item meta_str_record = Ok None /\
  parse_item meta_num_record = Ok None /\
  (exists e, fst (parse_library_data (library [raw_item "tt001" "A" None; meta_poster_record])
                    empty_world) = Err e) /\
  (forall m, In m ([canonical "tt001" "A"] ++ [canonical "tt002" "B"]) ->
     truthy (imdbID m) = true /\ truthy (Title m) = true).
Proof.
  destruct dropped_records_absent as [Hitem Hlist].
  split; [apply (proj1 (proj2 (Hitem (raw_item "" "C" (Some (JObj [])))
                                   (lacks_empty_id (raw_item "" "C" (Some (JObj []))) eq_refl)))); reflexivity|].
  split; [apply (proj1 (proj2 (Hitem meta_str_record (lacks_empty_id meta_str_record eq_refl)))); reflexivity|].
  split; [apply (proj1 (proj2 (Hitem meta_num_record (lacks_empty_id meta_num_record eq_refl)))); reflexivity|].
  split.
  - apply (proj2 (proj2 (proj2 (Hitem meta_poster_record (lacks_empty_id meta_poster_record eq_refl))))).
    + right. left. reflexivity.
    + reflexivity.
  - apply (Hlist spec_example_response empty_world _ _
             (mkWorld [LogParsed 1 1] [])).
    reflexivity.
Defined.

(** C5: on success, the two partitions are the stable filters of the
    retained items by their watched flag: every retained item is in exactly
    one of them, their lengths add up to the number of retained items, and
    together they are a permutation of the retained items. *)
Theorem normalize_partition_complete_stable : forall resp w wt wl w',
  parse_library_data resp w = (Ok (wt, wl), w') ->
  exists ks, retained_of resp = Ok ks /\
    wt = map snd (filter fst ks) /\
    wl = map snd (filter (fun p => negb (fst p)) ks) /\
    length wt + length wl = length ks /\
    Permutation (wt ++ wl) (map snd ks).
Proof.
  intros resp w wt wl w' H.
  destruct (parse_library_data_ok resp w wt wl w' H) as [ks [Hks [-> ->]]].
  exists ks. split; [exact Hks|]. split; [reflexivity|]. split; [reflexivity|].
  split.
  - rewrite !length_map. apply filter_partition_length.
  - rewrite <- map_app. apply Permutation_map, filter_partition_perm.
Qed.

(** Witness of C5 on the spec's end-to-end response. *)
Lemma normalize_partition_complete_stable_witness :
  parse_library_data spec_example_response empty_world
    = (Ok ([canonical "tt001" "A"], [canonical "tt002" "B"]), mkWorld [LogParsed 1 1] []) /\
  exists ks, retained_of spec_example_response = Ok ks /\
    [canonical "tt001" "A"] = map snd (filter fst ks) /\
    [canonical "tt002" "B"] = map snd (filter (fun p => negb (fst p)) ks) /\
    1 + 1 = length ks /\
    Permutation ([canonical "tt001" "A"] ++ [canonical "tt002" "B"]) (map snd ks).
Proof.
  split; [reflexivity|].
  exact (normalize_partition_complete_stable spec_example_response empty_world _ _ _ eq_refl).
Defined.

(** C8: the result of [parse_library_data] depends on its input only: a
    second run after the first (with the first run's log) gives the same
    result, and so does a run from any other state. *)
Theorem normalize_deterministic : forall resp w,
  fst (parse_library_data resp (snd (parse_library_data resp w))) =
    fst (parse_library_data resp w) /\
  (forall w1 w2, fst (parse_library_data resp w1) = fst (parse_library_data resp w2)).
Proof.
  intros resp w.
  assert (Hind : forall w1 w2, fst (parse_library_data resp w1) = fst (parse_library_data resp w2)).
  { intros w1 w2. rewrite !parse_library_data_pure.
    destruct (parse_pure resp); reflexivity. }
  split; [apply Hind | exact Hind].
Qed.

(** ** Lemmas on the restore loop *)

(** The [k]-th batch [items[50k : 50k+50]]. *)
Definition batch_of (l : list json) (k : nat) : list json :=
  firstn batch_size (skipn (batch_size * k) l).

(** The success criterion as the spec states it: a JSON mapping whose
    [result] is ["ok"] or whose [success] equals [True] in Python's [==]
    ([True] or [1]). *)
Definition indicates_success (r : Res json) : bool :=
  match r with
  | Ok (JObj fs) =>
      match assoc "result" fs with Some (JStr s) => String.eqb s "ok" | _ => false end ||
      match assoc "success" fs with
      | Some (JBool b) => b
      | Some (JNum n) => Z.eqb n 1
      | _ => false
      end
  | _ => false
  end.

Ltac div_facts x d :=
  pose proof (Nat.div_mod x d ltac:(discriminate));
  pose proof (Nat.mod_upper_bound x d ltac:(discriminate)).

Lemma div_up_step : forall d, 1 <= d ->
  (d + 49) / 50 = S ((d - 50 + 49) / 50).
Proof.
  intros d Hd. div_facts (d + 49) 50. div_facts (d - 50 + 49) 50. lia.
Qed.

Lemma range_go_seq : forall fuel i N,
  N - i <= fuel ->
  range_go fuel i N batch_size = map (fun k => i + batch_size * k) (seq 0 ((N - i + 49) / 50)).
Proof.
  induction fuel as [|f IH]; intros i N Hf.
  - simpl. replace (N - i) with 0 by lia. reflexivity.
  - simpl range_go. destruct (Nat.ltb i N) eqn:Hlt.
    + apply Nat.ltb_lt in Hlt.
      rewrite IH by (unfold batch_size; lia).
      rewrite (div_up_step (N - i)) by lia. cbn [seq map].
      f_equal; [unfold batch_size; lia|].
      rewrite <- seq_shift, map_map. unfold batch_size.
      replace (N - (i + 50)) with (N - i - 50) by lia.
      apply map_ext. intros k. lia.
    + apply Nat.ltb_ge in Hlt. replace (N - i) with 0 by lia. reflexivity.
Qed.

Lemma py_range_batches : forall N,
  py_range 0 N batch_size = map (fun k => batch_size * k) (seq 0 ((N + 49) / 50)).
Proof.
  intros N. unfold py_range. rewrite range_go_seq by lia.
  rewrite Nat.sub_0_r. reflexivity.
Qed.

Lemma slice_batch : forall l k,
  py_slice (JList l) (batch_size * k) (batch_size * k + batch_size) = Ok (JList (batch_of l k)).
Proof.
  intros l k. unfold py_slice, batch_of. f_equal. f_equal. f_equal. lia.
Qed.

Lemma batch_index : forall k, batch_size * k / batch_size = k.
Proof.
  intros k. unfold batch_size. rewrite Nat.mul_comm. apply Nat.div_mul. discriminate.
Qed.

Lemma batch_succeeded_spec : forall body,
  batch_succeeded body = Ok (indicates_success (Ok body)) \/
  (batch_succeeded body = Err AttributeError /\ indicates_success (Ok body) = false).
Proof.
  intros body. destruct body as [| | | | |fs]; try (right; split; reflexivity).
  left. unfold batch_succeeded, indicates_success. cbn [py_get res_bind].
  destruct (assoc "result" fs) as [[| | | s | |]|];
    destruct (assoc "success" fs) as [[| [|] | z | | |]|];
    cbn [json_eq_str py_eq_true]; try reflexivity;
    destruct (String.eqb s "ok"); reflexivity.
Qed.

Lemma restore_loop_cons : forall net tok l N k is sc w,
  exists lg,
  restore_loop net tok (JList l) N (batch_size * k :: is) sc w =
  restore_loop net tok (JList l) N is
    (sc + if indicates_success (net k (restore_payload tok (JList (batch_of l k))))
          then length (batch_of l k) else 0)
    (mkWorld (w_logs w ++ [lg])
       (w_net w ++ [NetPost datastore_put_url (restore_payload tok (JList (batch_of l k)))])).
Proof.
  intros net tok l N k is sc w.
  cbn [restore_loop]. unfold m_bind at 1, m_lift at 1. rewrite slice_batch.
  unfold m_try, m_bind, m_net, m_lift, m_log, m_ret. rewrite batch_index.
  cbn [w_logs w_net].
  destruct (net k (restore_payload tok (JList (batch_of l k)))) as [body|e].
  - destruct (batch_succeeded_spec body) as [H|[H H']].
    + rewrite H. destruct (indicates_success (Ok body)); cbn [py_len].
      * eexists. reflexivity.
      * eexists. rewrite Nat.add_0_r. reflexivity.
    + rewrite H, H'. eexists. rewrite Nat.add_0_r. reflexivity.
  - eexists. cbn [indicates_success]. rewrite Nat.add_0_r. reflexivity.
Qed.

Lemma restore_loop_list : forall net tok l N ks sc w,
  exists logs,
  restore_loop net tok (JList l) N (map (fun k => batch_size * k) ks) sc w =
  (Ok (sc + list_sum (map (fun k =>
          if indicates_success (net k (restore_payload tok (JList (batch_of l k))))
          then length (batch_of l k) else 0) ks)),
   mkWorld (w_logs w ++ logs)
     (w_net w ++ map (fun k => NetPost datastore_put_url
                                 (restore_payload tok (JList (batch_of l k)))) ks)).
Proof.
  intros net tok l N ks. induction ks as [|k ks IH]; intros sc w.
  - exists []. simpl. rewrite !app_nil_r, Nat.add_0_r. destruct w; reflexivity.
  - cbn [map]. destruct (restore_loop_cons net tok l N k
                          (map (fun k => batch_size * k) ks) sc w) as [lg Hc].
    rewrite Hc.
    match goal with |- context [restore_loop _ _ _ _ _ ?sc' ?w'] =>
      destruct (IH sc' w') as [logs Hl] end.
    rewrite Hl. exists (lg :: logs). cbn [w_logs w_net list_sum map].
    rewrite <- !app_assoc. f_equal. unfold list_sum. cbn [fold_right]. f_equal. lia.
Qed.

Definition batch_tally (net : nat -> json -> Res json) (tok : string) (l : list json) (k : nat) : nat :=
  if indicates_success (net k (restore_payload tok (JList (batch_of l k))))
  then length (batch_of l k) else 0.

Definition batch_post (tok : string) (b : list json) : io_event :=
  NetPost datastore_put_url (restore_payload tok (JList b)).

(** The line [restore_library] logs for batch [k] of [l] ([N] items in
    all): the restored range on success; the "may have failed" warning, with
    the body, for a mapping that does not indicate success; the error with
    the batch's start index when the write raised or the body is not a
    mapping ([result.get] raises [AttributeError]). *)
Definition batch_log (net : nat -> json -> Res json) (tok : string) (l : list json) (N k : nat)
  : log_entry :=
  let b := batch_of l k in
  match net k (restore_payload tok (JList b)) with
  | Ok (JObj fs) =>
      if indicates_success (Ok (JObj fs))
      then LogRestored (batch_size * k + 1) (Nat.min (batch_size * k + length b) N) N
      else LogBatchMayHaveFailed (k + 1) (JObj fs)
  | Ok _ => LogBatchFailed (batch_size * k) AttributeError
  | Err e => LogBatchFailed (batch_size * k) e
  end.

Lemma batch_succeeded_obj : forall fs,
  batch_succeeded (JObj fs) = Ok (indicates_success (Ok (JObj fs))).
Proof.
  intros fs. unfold batch_succeeded, indicates_success. cbn [py_get res_bind].
  destruct (assoc "result" fs) as [[| | | s | |]|];
    destruct (assoc "success" fs) as [[| [|] | z | | |]|];
    cbn [json_eq_str py_eq_true]; try reflexivity;
    destruct (String.eqb s "ok"); reflexivity.
Qed.

Lemma restore_loop_cons_log : forall net tok l N k is sc w,
  restore_loop net tok (JList l) N (batch_size * k :: is) sc w =
  restore_loop net tok (JList l) N is
    (sc + batch_tally net tok l k)
    (mkWorld (w_logs w ++ [batch_log net tok l N k])
       (w_net w ++ [batch_post tok (batch_of l k)])).
Proof.
  intros net tok l N k is sc w. unfold batch_tally, batch_log, batch_post.
  cbn [restore_loop]. unfold m_bind at 1, m_lift at 1. rewrite slice_batch.
  unfold m_try, m_bind, m_net, m_lift, m_log, m_ret. rewrite batch_index.
  cbn [w_logs w_net].
  destruct (net k (restore_payload tok (JList (batch_of l k)))) as [body|e].
  - destruct body as [| | | | |fs];
      [cbn [batch_succeeded py_get res_bind indicates_success]; rewrite Nat.add_0_r; reflexivity..|].
    rewrite batch_succeeded_obj.
    destruct (indicates_success (Ok (JObj fs))); cbn [py_len];
      [reflexivity|rewrite Nat.add_0_r; reflexivity].
  - cbn [indicates_success]. rewrite Nat.add_0_r. reflexivity.
Qed.

Lemma restore_loop_list_log : forall net tok l N ks sc w,
  restore_loop net tok (JList l) N (map (fun k => batch_size * k) ks) sc w =
  (Ok (sc + list_sum (map (batch_tally net tok l) ks)),
   mkWorld (w_logs w ++ map (batch_log net tok l N) ks)
     (w_net w ++ map (batch_post tok) (map (batch_of l) ks))).
Proof.
  intros net tok l N ks. induction ks as [|k ks IH]; intros sc w.
  - simpl. rewrite !app_nil_r, Nat.add_0_r. destruct w; reflexivity.
  - cbn [map]. rewrite restore_loop_cons_log, IH. cbn [w_logs w_net list_sum].
    rewrite <- !app_assoc. unfold list_sum. cbn [fold_right]. f_equal. f_equal. lia.
Qed.

Lemma restore_library_logged : forall net tok l w,
  restore_library net tok (JList l) w =
  (Ok (list_sum (map (batch_tally net tok l) (seq 0 ((length l + 49) / 50)))),
   mkWorld (w_logs w ++ LogStartRestore (length l) ::
              map (batch_log net tok l (length l)) (seq 0 ((length l + 49) / 50)))
     (w_net w ++ map (batch_post tok) (map (batch_of l) (seq 0 ((length l + 49) / 50))))).
Proof.
  intros net tok l w. unfold restore_library, m_bind at 1, m_lift at 1.
  cbn [py_len]. unfold m_bind, m_log. rewrite py_range_batches.
  rewrite restore_loop_list_log. cbn [w_logs w_net]. rewrite <- app_assoc. reflexivity.
Qed.

Lemma batch_log_failure : forall net tok l N k,
  indicates_success (net k (restore_payload tok (JList (batch_of l k)))) = false ->
  (exists body, net k (restore_payload tok (JList (batch_of l k))) = Ok body /\
     batch_log net tok l N k = LogBatchMayHaveFailed (k + 1) body) \/
  (exists e, batch_log net tok l N k = LogBatchFailed (batch_size * k) e).
Proof.
  intros net tok l N k H. unfold batch_log.
  destruct (net k (restore_payload tok (JList (batch_of l k)))) as [body|e].
  - destruct body as [| | | | |fs]; try (right; eexists; reflexivity).
    rewrite H. left. eexists. split; reflexivity.
  - right. eexists. reflexivity.
Qed.

Lemma restore_library_list : forall net tok l w,
  exists logs,
  restore_library net tok (JList l) w =
  (Ok (list_sum (map (batch_tally net tok l) (seq 0 ((length l + 49) / 50)))),
   mkWorld (w_logs w ++ LogStartRestore (length l) :: logs)
     (w_net w ++ map (batch_post tok) (map (batch_of l) (seq 0 ((length l + 49) / 50))))).
Proof.
  intros net tok l w. unfold restore_library, m_bind at 1, m_lift at 1.
  cbn [py_len]. unfold m_bind, m_log. rewrite py_range_batches.
  destruct (restore_loop_list net tok l (length l) (seq 0 ((length l + 49) / 50)) 0
              (mkWorld (w_logs w ++ [LogStartRestore (length l)]) (w_net w))) as [logs H].
  rewrite H. exists logs. cbn [w_logs w_net]. rewrite <- app_assoc. rewrite map_map.
  reflexivity.
Qed.

Lemma batches_concat : forall l n s,
  length l <= batch_size * (s + n) ->
  concat (map (batch_of l) (seq s n)) = skipn (batch_size * s) l.
Proof.
  unfold batch_of, batch_size.
  intros l n. induction n as [|n IH]; intros s Hlen.
  - simpl. symmetry. apply skipn_all2. lia.
  - cbn [seq map concat]. rewrite IH by lia.
    replace (50 * S s) with (50 + 50 * s) by lia.
    rewrite <- skipn_skipn. apply firstn_skipn.
Qed.

Lemma batches_bounded : forall l ks, Forall (fun b => length b <= 50) (map (batch_of l) ks).
Proof.
  intros l ks. apply Forall_forall. intros b Hb. apply in_map_iff in Hb as [k [<- _]].
  unfold batch_of. apply firstn_le_length.
Qed.

(** ** The restore claims *)

(** C2: restoring [N] items issues [ceil(N/50)] (that is [(N + 49) / 50])
    write calls, in order; each carries at most 50 items, and the batches
    concatenate back to the item list. *)
Theorem restore_batches_cover_in_order : forall net tok l w,
  exists n bs w',
    restore_library net tok (JList l) w = (Ok n, w') /\
    w_net w' = w_net w ++ map (batch_post tok) bs /\
    length bs = (length l + 49) / 50 /\
    Forall (fun b => length b <= 50) bs /\
    concat bs = l.
Proof.
  intros net tok l w.
  destruct (restore_library_list net tok l w) as [logs H].
  do 3 eexists. split; [exact H|]. cbn [w_net]. split; [reflexivity|].
  split; [rewrite length_map, length_seq; reflexivity|].
  split; [apply batches_bounded|].
  rewrite batches_concat; [reflexivity|].
  div_facts (length l + 49) 50. unfold batch_size. lia.
Qed.

Lemma batch_of_length : forall l k,
  length (batch_of l k) = Nat.min 50 (length l - 50 * k).
Proof.
  intros l k. unfold batch_of, batch_size. rewrite length_firstn, length_skipn. reflexivity.
Qed.

(** C1: for every server behaviour, the restore returns the sum of the sizes
    of the batches whose response indicates success ([result == "ok"] or
    [success == True]); every batch is posted whatever the outcome of the
    others, and the log is the total [N] followed by one line per batch:
    a batch that does not succeed (a failed write or a non-success body)
    is logged as a warning with its batch number and body or as an error
    with its starting index, and the loop goes on.  With 3 batches where
    only the second fails, the count is the size of batch 1 plus that of
    batch 3, all three batches are posted and logged, and no exception
    escapes. *)
Theorem restore_tally_best_effort : forall net tok l w,
  restore_library net tok (JList l) w =
    (Ok (list_sum (map (batch_tally net tok l) (seq 0 ((length l + 49) / 50)))),
     mkWorld (w_logs w ++ LogStartRestore (length l) ::
                map (batch_log net tok l (length l)) (seq 0 ((length l + 49) / 50)))
       (w_net w ++ map (batch_post tok) (map (batch_of l) (seq 0 ((length l + 49) / 50))))) /\
  (forall k, indicates_success (net k (restore_payload tok (JList (batch_of l k)))) = false ->
     (exists body, net k (restore_payload tok (JList (batch_of l k))) = Ok body /\
        batch_log net tok l (length l) k = LogBatchMayHaveFailed (k + 1) body) \/
     (exists e, batch_log net tok l (length l) k = LogBatchFailed (batch_size * k) e)) /\
  (100 < length l <= 150 ->
   (forall p, indicates_success (net 0 p) = true) ->
   (forall p, indicates_success (net 1 p) = false) ->
   (forall p, indicates_success (net 2 p) = true) ->
   restore_library net tok (JList l) w =
     (Ok (length (batch_of l 0) + length (batch_of l 2)),
      mkWorld (w_logs w ++ [LogStartRestore (length l); batch_log net tok l (length l) 0;
                            batch_log net tok l (length l) 1; batch_log net tok l (length l) 2])
        (w_net w ++ [batch_post tok (batch_of l 0); batch_post tok (batch_of l 1);
                     batch_post tok (batch_of l 2)])) /\
   length (batch_of l 0) + length (batch_of l 2) = 50 + (length l - 100)).
Proof.
  intros net tok l w.
  split; [apply restore_library_logged|].
  split; [intros k; apply batch_log_failure|].
  intros Hn H0 H1 H2.
  assert (H3 : (length l + 49) / 50 = 3).
  { div_facts (length l + 49) 50. lia. }
  rewrite restore_library_logged, H3. split.
  - unfold batch_tally. cbn [seq map list_sum fold_right].
    rewrite H0, H1, H2. do 3 f_equal. lia.
  - rewrite !batch_of_length. lia.
Qed.

(** The server of the spec's scenario: the second write fails. *)
Definition second_batch_fails : nat -> json -> Res json :=
  fun k _ => if Nat.eqb k 1 then Err RequestException else Ok (JObj [("result", JStr "ok")]).

Lemma restore_tally_best_effort_witness :
  restore_library second_batch_fails "tok" (JList (repeat JNull 120)) empty_world =
    (Ok (length (batch_of (repeat JNull 120) 0) + length (batch_of (repeat JNull 120) 2)),
     mkWorld ([] ++ [LogStartRestore 120; batch_log second_batch_fails "tok" (repeat JNull 120) 120 0;
                     batch_log second_batch_fails "tok" (repeat JNull 120) 120 1;
                     batch_log second_batch_fails "tok" (repeat JNull 120) 120 2])
       ([] ++ [batch_post "tok" (batch_of (repeat JNull 120) 0);
               batch_post "tok" (batch_of (repeat JNull 120) 1);
               batch_post "tok" (batch_of (repeat JNull 120) 2)])) /\
  length (batch_of (repeat JNull 120) 0) + length (batch_of (repeat JNull 120) 2)
    = 50 + (120 - 100) /\
  batch_log second_batch_fails "tok" (repeat JNull 120) 120 1 = LogBatchFailed 50 RequestException.
Proof.
  split; [|split; [|reflexivity]];
  apply (proj2 (proj2 (restore_tally_best_effort second_batch_fails "tok" (repeat JNull 120)
                         empty_world)));
    solve [simpl; lia | intros p; reflexivity].
Defined.

(** ** Lemmas on token extraction *)

(** A storage value that is not a mapping containing [auth]. *)
Definition not_auth_record (v : json) : Prop :=
  forall fs, v = JObj fs -> assoc "auth" fs = None.

Lemma find_profile_some : forall s p,
  find_profile s = Some p ->
  exists fs a, p = JObj fs /\ assoc "auth" fs = Some a.
Proof.
  induction s as [|[k v] s IH]; intros p H; simpl in H; [discriminate H|].
  destruct v as [| | | | |fs]; try (apply IH; exact H).
  unfold has_key in H. destruct (assoc "auth" fs) as [a|] eqn:Ea.
  - injection H as <-. exists fs, a. auto.
  - apply IH. exact H.
Qed.

Lemma find_profile_none : forall s,
  Forall (fun kv => not_auth_record (snd kv)) s -> find_profile s = None.
Proof.
  induction s as [|[k v] s IH]; intros H; [reflexivity|].
  inversion H as [|? ? Hv Hs]; subst. simpl.
  destruct v as [| | | | |fs]; try (apply IH; exact Hs).
  unfold has_key. rewrite (Hv fs eq_refl). apply IH. exact Hs.
Qed.

Lemma find_profile_app : forall pre k fs post a,
  Forall (fun kv => not_auth_record (snd kv)) pre ->
  assoc "auth" fs = Some a ->
  find_profile (pre ++ (k, JObj fs) :: post) = Some (JObj fs).
Proof.
  induction pre as [|[k' v] pre IH]; intros k fs post a H Ha.
  - simpl. unfold has_key. rewrite Ha. reflexivity.
  - inversion H as [|? ? Hv Hs]; subst. cbn [app find_profile].
    destruct v as [| | | | |fs']; try (eapply IH; eauto).
    unfold has_key. rewrite (Hv fs' eq_refl). eapply IH; eauto.
Qed.

Lemma extract_cases : forall s,
  (find_profile s = None /\ _extract_auth_key_from_storage s = Err (ValueError msg_no_profile)) \/
  (exists fs a, find_profile s = Some (JObj fs) /\ assoc "auth" fs = Some a /\
     _extract_auth_key_from_storage s =
       (has_k <- py_contains a "key" ;;
        if negb has_k then Err (ValueError msg_no_key) else py_getitem a "key")).
Proof.
  intros s. unfold _extract_auth_key_from_storage.
  destruct (find_profile s) as [p|] eqn:Ep.
  - right. destruct (find_profile_some s p Ep) as [fs [a [-> Ha]]].
    exists fs, a. split; [reflexivity|]. split; [exact Ha|].
    destruct fs as [|kv fs]; [discriminate Ha|].
    cbn [truthy negb py_contains res_bind py_getitem].
    unfold has_key. rewrite Ha. reflexivity.
  - left. split; reflexivity.
Qed.

Lemma key_lookup_not_value_error : forall a msg,
  (has_k <- py_contains a "key" ;;
   if negb has_k then Err (ValueError msg_no_key) else py_getitem a "key")
    = Err (ValueError msg) -> msg = msg_no_key.
Proof.
  intros a msg H.
  destruct a as [| | | | |fs]; cbn [py_contains res_bind] in H; try discriminate H.
  all: match type of H with context [negb ?b] => destruct b end; cbn in H;
       try (injection H as <-; reflexivity).
  all: try discriminate H.
  destruct (assoc "key" fs); discriminate H.
Qed.

(** ** The token extraction claims *)

(** C6 (counterexample): a snapshot whose profile entry has no [auth] field
    fails with the same labelled error as a snapshot with no profile entry
    at all, so the three shape failures are not three distinct errors. *)
Lemma profile_without_auth_counterexample :
  _extract_auth_key_from_storage [("profile", JObj [("user", JStr "u")])]
    = Err (ValueError msg_no_profile) /\
  _extract_auth_key_from_storage [] = Err (ValueError msg_no_profile) /\
  msg_no_profile <> msg_no_auth.
Proof. split; [reflexivity|]. split; [reflexivity|]. discriminate. Qed.

(** C6 (amended): with no storage value a mapping containing [auth], the
    extraction raises the "Could not find profile data" error; when the first
    such mapping has an [auth] mapping without [key] it raises the distinct
    "No 'key' field" error; an [auth] of [null] raises a generic
    [TypeError]; the "No 'auth' field" error is never raised. *)
Theorem token_shape_errors :
  (forall s, Forall (fun kv => not_auth_record (snd kv)) s ->
     _extract_auth_key_from_storage s = Err (ValueError msg_no_profile)) /\
  (forall pre k fs afs post,
     Forall (fun kv => not_auth_record (snd kv)) pre ->
     assoc "auth" fs = Some (JObj afs) -> assoc "key" afs = None ->
     _extract_auth_key_from_storage (pre ++ (k, JObj fs) :: post)
       = Err (ValueError msg_no_key)) /\
  (forall pre k fs post,
     Forall (fun kv => not_auth_record (snd kv)) pre ->
     assoc "auth" fs = Some JNull ->
     _extract_auth_key_from_storage (pre ++ (k, JObj fs) :: post) = Err TypeError) /\
  (forall s, _extract_auth_key_from_storage s <> Err (ValueError msg_no_auth)) /\
  msg_no_profile <> msg_no_key.
Proof.
  split; [|split; [|split; [|split]]].
  - intros s H. unfold _extract_auth_key_from_storage.
    rewrite (find_profile_none s H). reflexivity.
  - intros pre k fs afs post Hpre Ha Hk.
    destruct (extract_cases (pre ++ (k, JObj fs) :: post)) as [[Hn _]|[fs' [a [Hf [Ha' He]]]]].
    + rewrite (find_profile_app pre k fs post _ Hpre Ha) in Hn. discriminate Hn.
    + rewrite (find_profile_app pre k fs post _ Hpre Ha) in Hf. injection Hf as <-.
      rewrite Ha in Ha'. injection Ha' as <-. rewrite He.
      cbn [py_contains res_bind]. unfold has_key. rewrite Hk. reflexivity.
  - intros pre k fs post Hpre Ha.
    destruct (extract_cases (pre ++ (k, JObj fs) :: post)) as [[Hn _]|[fs' [a [Hf [Ha' He]]]]].
    + rewrite (find_profile_app pre k fs post _ Hpre Ha) in Hn. discriminate Hn.
    + rewrite (find_profile_app pre k fs post _ Hpre Ha) in Hf. injection Hf as <-.
      rewrite Ha in Ha'. injection Ha' as <-. rewrite He. reflexivity.
  - intros s Hs.
    destruct (extract_cases s) as [[_ He]|[fs [a [_ [_ He]]]]]; rewrite He in Hs.
    + discriminate Hs.
    + apply key_lookup_not_value_error in Hs. discriminate Hs.
  - discriminate.
Qed.

Definition storage_auth_without_key : list (string * json) :=
  [("installation_id", JStr "x"); ("profile", JObj [("auth", JObj [("user", JNull)])])].

Lemma token_shape_errors_witness :
  _extract_auth_key_from_storage [("installation_id", JStr "x")]
    = Err (ValueError msg_no_profile) /\
  _extract_auth_key_from_storage storage_auth_without_key = Err (ValueError msg_no_key) /\
  _extract_auth_key_from_storage [("profile", JObj [("auth", JNull)])] = Err TypeError.
Proof.
  destruct token_shape_errors as [H1 [H2 [H3 _]]].
  assert (Hx : Forall (fun kv => not_auth_record (snd kv)) [("installation_id", JStr "x")]).
  { constructor; [|constructor]. intros fs Hfs. discriminate Hfs. }
  split; [apply H1; exact Hx|]. split.
  - apply (H2 [("installation_id", JStr "x")] "profile" [("auth", JObj [("user", JNull)])]
             [("user", JNull)] []); [exact Hx|reflexivity|reflexivity].
  - apply (H3 [] "profile" [("auth", JNull)] []); [constructor|reflexivity].
Defined.

(** C10: the "No 'auth' field" error is never raised: the only labelled
    errors of the extraction are the missing-profile and missing-key ones. *)
Theorem no_auth_branch_unreachable : forall s,
  _extract_auth_key_from_storage s <> Err (ValueError msg_no_auth) /\
  (forall msg, _extract_auth_key_from_storage s = Err (ValueError msg) ->
     msg = msg_no_profile \/ msg = msg_no_key).
Proof.
  intros s.
  assert (Hm : forall msg, _extract_auth_key_from_storage s = Err (ValueError msg) ->
                 msg = msg_no_profile \/ msg = msg_no_key).
  { intros msg H. destruct (extract_cases s) as [[_ He]|[fs [a [_ [_ He]]]]];
      rewrite He in H.
    - injection H as <-. left. reflexivity.
    - right. apply key_lookup_not_value_error in H. exact H. }
  split; [|exact Hm].
  intros H. destruct (Hm _ H) as [E|E]; discriminate E.
Qed.

Lemma no_auth_branch_unreachable_witness :
  _extract_auth_key_from_storage storage_auth_without_key = Err (ValueError msg_no_key) /\
  (msg_no_key = msg_no_profile \/ msg_no_key = msg_no_key).
Proof.
  split; [reflexivity|].
  apply (proj2 (no_auth_branch_unreachable storage_auth_without_key)). reflexivity.
Defined.

(** C9: [_launch_browser] launches headless whatever [headless] is, so
    [extract_auth_key] and [extract_stremio_auth_key] behave the same for
    both values of [headless]. *)
Theorem headless_parameter_ignored : forall launch run_page credentials_set browser_type h1 h2 w,
  launch_headless (_launch_browser browser_type h1) = true /\
  _launch_browser browser_type h1 = _launch_browser browser_type h2 /\
  extract_auth_key launch run_page browser_type h1 w =
    extract_auth_key launch run_page browser_type h2 w /\
  extract_stremio_auth_key launch run_page credentials_set h1 browser_type w =
    extract_stremio_auth_key launch run_page credentials_set h2 browser_type w.
Proof. intros. repeat split; reflexivity. Qed.

(** ** The backup loader claim *)

(** The two artifact shapes as the code recognises them. *)
Definition recognised_shape (f : backup_file) : bool :=
  match f with
  | FileParsed (JObj fs) => has_key "result" fs
  | FileParsed (JList _) => true
  | _ => false
  end.

Definition always_ok : nat -> json -> Res json := fun _ _ => Ok (JObj [("result", JStr "ok")]).

(** C7 (counterexample): a mapping whose [result] is not a list is accepted
    by [load_backup]; the importer then extracts a token in the browser and
    posts the string as the batch. *)
Lemma non_list_result_counterexample :
  load_backup (FileParsed (JObj [("result", JStr "abc")])) = Ok (JStr "abc") /\
  importer_main always_ok (Ok "tok") true (FileParsed (JObj [("result", JStr "abc")])) empty_world
  = (Ok 0%Z,
     mkWorld [LogLoading; LogLoaded 3; LogAuthOk; LogStartRestore 3;
              LogRestored 1 3 3; LogRestoreCompleted 3 3]
       [NetAuthExtraction; NetPost datastore_put_url (restore_payload "tok" (JStr "abc"))]).
Proof. split; reflexivity. Qed.

(** C7 (amended): [load_backup] returns the value under ["result"] of a
    mapping that has that key, whatever its type, and a bare list as is; any
    other parsed value, and an unreadable or unparseable file, raise
    [ValueError]; on that error the importer exits with 1 before any network
    activity. *)
Theorem load_backup_shapes : forall f,
  (forall fs, f = FileParsed (JObj fs) -> has_key "result" fs = true ->
     load_backup f = Ok (get_or "result" fs JNull)) /\
  (forall l, f = FileParsed (JList l) -> load_backup f = Ok (JList l)) /\
  (recognised_shape f = false -> exists msg, load_backup f = Err (ValueError msg)) /\
  (forall net auth w msg, load_backup f = Err (ValueError msg) ->
     importer_main net auth true f w =
       (Ok 1%Z, mkWorld (w_logs w ++ [LogLoading; LogRestoreFailed (ValueError msg)]) (w_net w))).
Proof.
  intros f. split; [|split; [|split]].
  - intros fs -> Hk. unfold load_backup, get_or. cbn [res_bind]. rewrite Hk.
    unfold has_key in Hk. cbn [py_getitem].
    destruct (assoc "result" fs); [reflexivity|discriminate Hk].
  - intros l ->. reflexivity.
  - intros Hs. destruct f as [| |data]; try (eexists; reflexivity).
    destruct data as [| | | | |fs]; cbn in Hs; try discriminate Hs;
      try (eexists; reflexivity).
    unfold load_backup. cbn [res_bind]. rewrite Hs. eexists. reflexivity.
  - intros net auth w msg H. unfold importer_main. cbn [negb].
    unfold m_try, m_bind, m_log, m_lift, m_ret. rewrite H.
    cbn [w_logs w_net]. rewrite <- app_assoc. reflexivity.
Qed.

Lemma load_backup_shapes_witness :
  load_backup (FileParsed (JObj [("result", JList [])])) = Ok (JList []) /\
  load_backup (FileParsed (JList [JNull])) = Ok (JList [JNull]) /\
  (exists msg, load_backup (FileParsed (JNum 3)) = Err (ValueError msg)) /\
  importer_main always_ok (Ok "tok") true FileUnparseable empty_world =
    (Ok 1%Z, mkWorld ([] ++ [LogLoading;
                             LogRestoreFailed (ValueError "Failed to load backup: JSONDecodeError")]) []).
Proof.
  split; [apply (proj1 (load_backup_shapes (FileParsed (JObj [("result", JList [])])))
                 _ eq_refl eq_refl)|].
  split; [apply (proj1 (proj2 (load_backup_shapes (FileParsed (JList [JNull])))) _ eq_refl)|].
  split; [apply (proj1 (proj2 (proj2 (load_backup_shapes (FileParsed (JNum 3)))))); reflexivity|].
  apply (proj2 (proj2 (proj2 (load_backup_shapes FileUnparseable)))). reflexivity.
Defined.

(** * Further properties of the code *)

(** ** Normalizer: field resolution, composition, edge cases *)

(** [poster]: the item's own when truthy, else [meta.poster] when [meta]
    has it. *)
Definition resolved_poster (fs : list (string * json)) : json :=
  let p := get_or "poster" fs JNull in
  if truthy p then p else
  match assoc "meta" fs with
  | Some (JObj mf) => match assoc "poster" mf with Some x => x | None => p end
  | _ => p
  end.

(** [year]: the item's own when truthy, else [meta.get('year')] when
    [meta] is present. *)
Definition resolved_year (fs : list (string * json)) : json :=
  let y := get_or "year" fs JNull in
  if truthy y then y else
  match assoc "meta" fs with
  | Some (JObj mf) => get_or "year" mf JNull
  | _ => y
  end.

Definition resolved_counter (fs : list (string * json)) : json :=
  match assoc "state" fs with
  | Some (JObj st) => get_or "timesWatched" st (JNum 0)
  | _ => JNum 0
  end.

Lemma parse_item_well_shaped : forall fs,
  well_shaped (JObj fs) ->
  parse_item (JObj fs) =
  if negb (truthy (get_or "_id" fs (JStr ""))) || negb (truthy (get_or "name" fs (JStr "")))
  then Ok None
  else res_bind (py_gt_zero (resolved_counter fs)) (fun w =>
         Ok (Some (w, mkMovie (get_or "_id" fs (JStr "")) (get_or "name" fs (JStr ""))
                        (resolved_poster fs) (resolved_year fs)
                        (get_or "type" fs (JStr "movie"))))).
Proof.
  intros fs [fs' [Heq [Hs Hm]]]. injection Heq as <-.
  unfold resolved_poster, resolved_year, resolved_counter, get_or.
  unfold parse_item, py_contains, py_getitem, has_key. cbn [py_get res_bind].
  destruct Hs as [Hs|[st Hs]]; rewrite Hs; cbn [py_get res_bind];
  destruct Hm as [Hm|[mf Hm]]; rewrite ?Hm; cbn [py_get res_bind];
  destruct (truthy (match assoc "poster" fs with Some x => x | None => JNull end));
  cbn [res_bind];
  try (destruct (assoc "poster" mf) eqn:Hp; cbn [res_bind py_get]; rewrite ?Hm, ?Hp;
       cbn [res_bind]);
  destruct (truthy (match assoc "year" fs with Some x => x | None => JNull end));
  cbn [res_bind py_get]; rewrite ?Hm; cbn [res_bind py_get];
  reflexivity.
Qed.

Lemma retained_app : forall l1 l2,
  retained (l1 ++ l2) =
  (ks1 <- retained l1 ;; ks2 <- retained l2 ;; Ok (ks1 ++ ks2)).
Proof.
  induction l1 as [|x l1 IH]; intros l2; simpl.
  - destruct (retained l2); reflexivity.
  - destruct (parse_item x) as [o|e]; simpl; [|reflexivity].
    rewrite IH. destruct (retained l1) as [ks1|e]; simpl; [|reflexivity].
    destruct (retained l2) as [ks2|e]; simpl; [|reflexivity].
    destruct o; reflexivity.
Qed.

(** X1: a response mapping without ["result"] yields two empty partitions
    (and logs 0 and 0); a response that is not a mapping raises
    [AttributeError] and logs nothing. *)
Theorem parse_missing_result : forall resp w,
  (forall fs, resp = JObj fs -> assoc "result" fs = None ->
     parse_library_data resp w = (Ok ([], []), mkWorld (w_logs w ++ [LogParsed 0 0]) (w_net w))) /\
  ((forall fs, resp <> JObj fs) -> parse_library_data resp w = (Err AttributeError, w)).
Proof.
  intros resp w. split.
  - intros fs -> H. rewrite parse_library_data_pure. unfold parse_pure.
    cbn [py_get]. rewrite H. reflexivity.
  - intros H. rewrite parse_library_data_pure. unfold parse_pure.
    destruct resp as [| | | | |fs]; try reflexivity. exfalso. exact (H fs eq_refl).
Qed.

Lemma parse_missing_result_witness :
  parse_library_data (JObj [("error", JStr "x")]) empty_world
    = (Ok ([], []), mkWorld ([] ++ [LogParsed 0 0]) []) /\
  parse_library_data (JList []) empty_world = (Err AttributeError, empty_world).
Proof.
  split.
  - apply (proj1 (parse_missing_result (JObj [("error", JStr "x")]) empty_world) _ eq_refl).
    reflexivity.
  - apply (proj2 (parse_missing_result (JList []) empty_world)). discriminate.
Defined.

Lemma fst_parse_library_data : forall resp w,
  fst (parse_library_data resp w) = parse_pure resp.
Proof.
  intros resp w. rewrite parse_library_data_pure. destruct (parse_pure resp); reflexivity.
Qed.

(** X2: normalizing the concatenation of two item lists gives the
    concatenations of the partitions of each (the first error wins). *)
Theorem parse_library_data_app : forall l1 l2 w,
  fst (parse_library_data (library (l1 ++ l2)) w) =
  (r1 <- fst (parse_library_data (library l1) w) ;;
   r2 <- fst (parse_library_data (library l2) w) ;;
   Ok (fst r1 ++ fst r2, snd r1 ++ snd r2)).
Proof.
  intros l1 l2 w. rewrite !fst_parse_library_data, !parse_pure_retained.
  unfold retained_of, library. simpl py_get. cbn [res_bind py_iter].
  rewrite retained_app.
  destruct (retained l1) as [ks1|e]; simpl; [|reflexivity].
  destruct (retained l2) as [ks2|e]; simpl; [|reflexivity].
  rewrite !filter_app, !map_app. reflexivity.
Qed.

(** X3: for a record whose [state] and [meta] are absent or mappings and that
    has a non-empty id and name, the canonical item takes its poster from the
    record, else from [meta.poster]; its year from the record, else from
    [meta.year] (None when [meta] lacks it); its type from the record, else
    ["movie"]. *)
Theorem kept_item_fields : forall fs,
  well_shaped (JObj fs) ->
  truthy (get_or "_id" fs (JStr "")) = true ->
  truthy (get_or "name" fs (JStr "")) = true ->
  forall b, py_gt_zero (resolved_counter fs) = Ok b ->
  parse_item (JObj fs) =
    Ok (Some (b, mkMovie (get_or "_id" fs (JStr "")) (get_or "name" fs (JStr ""))
                   (resolved_poster fs) (resolved_year fs)
                   (get_or "type" fs (JStr "movie")))).
Proof.
  intros fs Hws Hi Hn b Hb. rewrite (parse_item_well_shaped fs Hws), Hi, Hn, Hb.
  reflexivity.
Qed.

Definition item_with_meta : list (string * json) :=
  [("_id", JStr "tt1"); ("name", JStr "A"); ("year", JStr "");
   ("meta", JObj [("poster", JStr "p.jpg")])].

Lemma kept_item_fields_witness :
  parse_item (JObj item_with_meta) =
    Ok (Some (false, mkMovie (JStr "tt1") (JStr "A") (JStr "p.jpg") JNull (JStr "movie"))).
Proof.
  apply (kept_item_fields item_with_meta).
  - exists item_with_meta. split; [reflexivity|].
    split; [left; reflexivity|right; eexists; reflexivity].
  - reflexivity.
  - reflexivity.
  - reflexivity.
Defined.

(** X4: a [timesWatched] that is not a number (a string, null, list or
    mapping) makes a retained record raise [TypeError], but is harmless on a
    record dropped for lacking an id or name. *)
Theorem non_numeric_counter : forall fs st v,
  well_shaped (JObj fs) ->
  assoc "state" fs = Some (JObj st) -> assoc "timesWatched" st = Some v ->
  (forall n, v <> JNum n) -> (forall b, v <> JBool b) ->
  parse_item (JObj fs) =
    if negb (truthy (get_or "_id" fs (JStr ""))) || negb (truthy (get_or "name" fs (JStr "")))
    then Ok None else Err TypeError.
Proof.
  intros fs st v Hws Hs Ht Hn Hb. rewrite (parse_item_well_shaped fs Hws).
  unfold resolved_counter, get_or at 3. rewrite Hs, Ht.
  destruct (_ || _); [reflexivity|].
  destruct v as [| b | n | | |]; try reflexivity.
  - exfalso. exact (Hb b eq_refl).
  - exfalso. exact (Hn n eq_refl).
Qed.

Definition item_string_counter (id : string) : list (string * json) :=
  [("_id", JStr id); ("name", JStr "A"); ("state", JObj [("timesWatched", JStr "2")])].

Lemma non_numeric_counter_witness :
  parse_item (JObj (item_string_counter "tt1")) = Err TypeError /\
  parse_item (JObj (item_string_counter "")) = Ok None.
Proof.
  assert (Hws : forall id, well_shaped (JObj (item_string_counter id))).
  { intros id. exists (item_string_counter id). split; [reflexivity|].
    split; [right; eexists; reflexivity|left; reflexivity]. }
  split.
  - apply (non_numeric_counter (item_string_counter "tt1") [("timesWatched", JStr "2")] (JStr "2"));
      [apply Hws|reflexivity|reflexivity|discriminate|discriminate].
  - apply (non_numeric_counter (item_string_counter "") [("timesWatched", JStr "2")] (JStr "2"));
      [apply Hws|reflexivity|reflexivity|discriminate|discriminate].
Defined.

(** ** Restore: the success count *)

Lemma ok_inj {A} (a b : A) : Ok a = Ok b -> a = b.
Proof. intros H. congruence. Qed.

Lemma list_sum_map_le : forall (f g : nat -> nat) ks,
  (forall x, In x ks -> f x <= g x) -> list_sum (map f ks) <= list_sum (map g ks).
Proof.
  intros f g ks. induction ks as [|x ks IH]; intros H; simpl; [lia|].
  pose proof (H x (or_introl eq_refl)).
  assert (list_sum (map f ks) <= list_sum (map g ks)) by (apply IH; intros y Hy; apply H; now right).
  lia.
Qed.

Lemma list_sum_map_eq : forall (f g : nat -> nat) ks,
  (forall x, In x ks -> f x <= g x) -> list_sum (map f ks) = list_sum (map g ks) ->
  forall x, In x ks -> f x = g x.
Proof.
  intros f g ks. induction ks as [|y ks IH]; intros Hle Heq x Hx; simpl in *; [contradiction|].
  assert (Hks : list_sum (map f ks) <= list_sum (map g ks))
    by (apply list_sum_map_le; intros z Hz; apply Hle; now right).
  pose proof (Hle y (or_introl eq_refl)).
  destruct Hx as [<-|Hx]; [lia|].
  apply IH; [intros z Hz; apply Hle; now right|lia|exact Hx].
Qed.

Lemma batch_lengths_sum : forall l,
  list_sum (map (fun k => length (batch_of l k)) (seq 0 ((length l + 49) / 50))) = length l.
Proof.
  intros l. rewrite <- (map_map (batch_of l) (@length json)), <- length_concat.
  rewrite batches_concat; [reflexivity|].
  unfold batch_size. div_facts (length l + 49) 50. lia.
Qed.

Lemma batch_nonempty : forall l k,
  k < (length l + 49) / 50 -> 0 < length (batch_of l k).
Proof.
  intros l k Hk. rewrite batch_of_length. div_facts (length l + 49) 50. lia.
Qed.

(** X5: the count [restore_library] returns never exceeds the number of
    items, and equals it exactly when the server's answer to every batch
    indicates success. *)
Theorem restore_count_bound : forall net tok l w n w',
  restore_library net tok (JList l) w = (Ok n, w') ->
  n <= length l /\
  (n = length l <->
   forall k, k < (length l + 49) / 50 ->
     indicates_success (net k (restore_payload tok (JList (batch_of l k)))) = true).
Proof.
  intros net tok l w n w' H.
  destruct (restore_library_list net tok l w) as [logs H'].
  rewrite H in H'. apply (f_equal fst) in H'. cbn [fst] in H'.
  apply ok_inj in H'. subst n.
  assert (Hle : forall k, In k (seq 0 ((length l + 49) / 50)) ->
            batch_tally net tok l k <= length (batch_of l k)).
  { intros k _. unfold batch_tally. destruct (indicates_success _); lia. }
  pose proof (batch_lengths_sum l) as Hsum.
  split; [rewrite <- Hsum at 2; apply list_sum_map_le; exact Hle|].
  split.
  - intros Heq k Hk.
    assert (Hin : In k (seq 0 ((length l + 49) / 50))) by (apply in_seq; lia).
    pose proof (list_sum_map_eq _ _ _ Hle (eq_trans Heq (eq_sym Hsum)) k Hin) as Hk'.
    pose proof (batch_nonempty l k Hk).
    unfold batch_tally in Hk'. destruct (indicates_success _); [reflexivity|lia].
  - intros Hall. rewrite <- Hsum at 2. f_equal. apply map_ext_in. intros k Hk.
    apply in_seq in Hk. unfold batch_tally. rewrite Hall by lia. reflexivity.
Qed.

Lemma restore_count_bound_witness :
  70 <= length (repeat JNull 70) /\
  (70 = length (repeat JNull 70) <->
   forall k, k < (length (repeat JNull 70) + 49) / 50 ->
     indicates_success (always_ok k (restore_payload "tok" (JList (batch_of (repeat JNull 70) k)))) = true).
Proof.
  apply (restore_count_bound always_ok "tok" (repeat JNull 70) empty_world 70
           (snd (restore_library always_ok "tok" (JList (repeat JNull 70)) empty_world))).
  vm_compute. reflexivity.
Defined.

(** ** Importer: exit codes *)

(** X6: the importer's exit code. With a backup holding a list of items and
    a successful login it is 0 whatever the server answers to the writes
    (failed batches are only logged); when the login fails it is 1 and
    nothing is posted; when the backup cannot be loaded it is 1 before any
    login is attempted. *)
Theorem importer_exit_codes : forall net auth w,
  (forall f l tok, load_backup f = Ok (JList l) -> auth = Ok tok ->
     fst (importer_main net auth true f w) = Ok 0%Z) /\
  (forall f l e, load_backup f = Ok (JList l) -> auth = Err e ->
     importer_main net auth true f w =
     (Ok 1%Z, mkWorld (w_logs w ++ [LogLoading; LogLoaded (length l); LogRestoreFailed e])
                (w_net w ++ [NetAuthExtraction]))) /\
  (forall f e, load_backup f = Err e ->
     importer_main net auth true f w =
     (Ok 1%Z, mkWorld (w_logs w ++ [LogLoading; LogRestoreFailed e]) (w_net w))).
Proof.
  intros net auth w. split; [|split].
  - intros f l tok Hf Ha. unfold importer_main. cbn [negb].
    unfold m_try, m_bind at 1, m_log at 1. cbn [w_logs w_net].
    unfold m_bind at 1, m_lift at 1. rewrite Hf.
    unfold m_bind at 1, m_lift at 1. cbn [py_len].
    unfold m_bind at 1, m_log at 1. cbn [w_logs w_net].
    unfold m_bind at 1, m_net at 1. cbn [w_logs w_net].
    unfold m_bind at 1, m_lift at 1. rewrite Ha.
    unfold m_bind at 1, m_log at 1. cbn [w_logs w_net].
    unfold m_bind at 1.
    match goal with |- context [restore_library net tok (JList l) ?w0] =>
      destruct (restore_library_list net tok l w0) as [logs Hr]; rewrite Hr end.
    reflexivity.
  - intros f l e Hf Ha. unfold importer_main. cbn [negb].
    unfold m_try, m_bind, m_log, m_lift, m_net, m_ret. rewrite Hf. cbn [py_len].
    rewrite Ha. cbn [w_logs w_net]. rewrite <- !app_assoc. reflexivity.
  - intros f e Hf. unfold importer_main. cbn [negb].
    unfold m_try, m_bind, m_log, m_lift, m_net, m_ret. rewrite Hf.
    cbn [w_logs w_net]. rewrite <- !app_assoc. reflexivity.
Qed.

Lemma importer_exit_codes_witness :
  fst (importer_main second_batch_fails (Ok "tok") true (FileParsed (JList (repeat JNull 3))) empty_world)
    = Ok 0%Z /\
  importer_main always_ok (Err RequestException) true (FileParsed (JList [JNull])) empty_world =
    (Ok 1%Z, mkWorld ([] ++ [LogLoading; LogLoaded 1; LogRestoreFailed RequestException])
               ([] ++ [NetAuthExtraction])) /\
  importer_main always_ok (Ok "tok") true FileUnreadable empty_world =
    (Ok 1%Z, mkWorld ([] ++ [LogLoading;
                             LogRestoreFailed (ValueError "Failed to load backup: OSError")]) []).
Proof.
  split; [|split].
  - apply (proj1 (importer_exit_codes second_batch_fails (Ok "tok") empty_world)
             _ (repeat JNull 3) "tok"); reflexivity.
  - apply (proj1 (proj2 (importer_exit_codes always_ok (Err RequestException) empty_world))
             _ [JNull] RequestException); reflexivity.
  - apply (proj2 (proj2 (importer_exit_codes always_ok (Ok "tok") empty_world))); reflexivity.
Defined.

(** ** Token extraction: success path, string [auth], browser life cycle *)

(** X7: when the first storage value that is a mapping containing [auth]
    has an [auth] mapping with a [key], that value is returned as it is,
    whatever its type (null included); the entries after it are never
    looked at. *)
Theorem first_auth_record_key : forall pre k fs afs post v,
  Forall (fun kv => not_auth_record (snd kv)) pre ->
  assoc "auth" fs = Some (JObj afs) -> assoc "key" afs = Some v ->
  _extract_auth_key_from_storage (pre ++ (k, JObj fs) :: post) = Ok v.
Proof.
  intros pre k fs afs post v Hpre Ha Hk.
  destruct (extract_cases (pre ++ (k, JObj fs) :: post)) as [[Hn _]|[fs' [a [Hf [Ha' He]]]]].
  - rewrite (find_profile_app pre k fs post _ Hpre Ha) in Hn. discriminate Hn.
  - rewrite (find_profile_app pre k fs post _ Hpre Ha) in Hf. injection Hf as <-.
    rewrite Ha in Ha'. injection Ha' as <-. rewrite He.
    cbn [py_contains res_bind py_getitem]. unfold has_key. rewrite Hk. reflexivity.
Qed.

Lemma first_auth_record_key_witness :
  _extract_auth_key_from_storage
    [("a", JStr "x"); ("p", JObj [("auth", JObj [("key", JNull)])]);
     ("q", JObj [("auth", JObj [("key", JStr "k2")])])] = Ok JNull.
Proof.
  apply (first_auth_record_key [("a", JStr "x")] "p" [("auth", JObj [("key", JNull)])]
           [("key", JNull)] [("q", JObj [("auth", JObj [("key", JStr "k2")])])] JNull).
  - constructor; [|constructor]. intros fs H. discriminate H.
  - reflexivity.
  - reflexivity.
Defined.

(** X8: when that [auth] value is a string, [in] tests for the substring
    ["key"]: without it the "No 'key' field" error is raised, with it the
    string indexing raises a [TypeError]. *)
Theorem string_auth_value : forall pre k fs post s,
  Forall (fun kv => not_auth_record (snd kv)) pre ->
  assoc "auth" fs = Some (JStr s) ->
  _extract_auth_key_from_storage (pre ++ (k, JObj fs) :: post) =
    if str_contains "key" s then Err TypeError else Err (ValueError msg_no_key).
Proof.
  intros pre k fs post s Hpre Ha.
  destruct (extract_cases (pre ++ (k, JObj fs) :: post)) as [[Hn _]|[fs' [a [Hf [Ha' He]]]]].
  - rewrite (find_profile_app pre k fs post _ Hpre Ha) in Hn. discriminate Hn.
  - rewrite (find_profile_app pre k fs post _ Hpre Ha) in Hf. injection Hf as <-.
    rewrite Ha in Ha'. injection Ha' as <-. rewrite He.
    cbn [py_contains res_bind py_getitem]. destruct (str_contains "key" s); reflexivity.
Qed.

Lemma string_auth_value_witness :
  _extract_auth_key_from_storage [("p", JObj [("auth", JStr "monkey")])] = Err TypeError /\
  _extract_auth_key_from_storage [("p", JObj [("auth", JStr "token")])]
    = Err (ValueError msg_no_key).
Proof.
  split.
  - apply (string_auth_value [] "p" [("auth", JStr "monkey")] [] "monkey");
      [constructor|reflexivity].
  - apply (string_auth_value [] "p" [("auth", JStr "token")] [] "token");
      [constructor|reflexivity].
Defined.

(** X9: [extract_auth_key] makes one launch call. If it raises, the error
    escapes unchanged, unlogged, and no [close] is issued. Once the browser
    is launched it is closed on every path, on success and on every failure
    of the page steps or of the token lookup, and such a failure is logged
    once and re-raised unchanged. Without credentials,
    [extract_stremio_auth_key] raises before any browser is launched. *)
Theorem browser_always_closed : forall launch run_page bt h w,
  extract_auth_key launch run_page bt h w =
    match launch (_launch_browser bt h) with
    | Err e => (Err e, mkWorld (w_logs w) (w_net w ++ [BrowserLaunch (_launch_browser bt h)]))
    | Ok _ =>
        (res_bind (run_page (_launch_browser bt h)) _extract_auth_key_from_storage,
         mkWorld (w_logs w ++ match res_bind (run_page (_launch_browser bt h))
                                       _extract_auth_key_from_storage with
                              | Ok _ => [] | Err e => [LogAuthFailed e] end)
                 (w_net w ++ [BrowserLaunch (_launch_browser bt h); BrowserClose]))
    end /\
  extract_stremio_auth_key launch run_page false h bt w =
    (Err (ValueError "Please set STREMIO_EMAIL and STREMIO_PASSWORD in your .env file"), w).
Proof.
  intros launch run_page bt h w. split; [|reflexivity].
  unfold extract_auth_key, m_try, m_bind, m_net, m_lift, m_log, m_raise.
  cbn [w_logs w_net].
  destruct (launch (_launch_browser bt h)) as [u|e]; [|reflexivity].
  destruct (run_page (_launch_browser bt h)) as [snap|e]; cbn [res_bind].
  - destruct (_extract_auth_key_from_storage snap); cbn [snd w_logs w_net];
      rewrite ?app_nil_r, <- ?app_assoc; reflexivity.
  - cbn [snd w_logs w_net]. rewrite <- app_assoc. reflexivity.
Qed.

(** ** Exporter: request, fetch stage, files *)

Lemma sm_bind_ok {S A B} (m : SM S A) (k : A -> SM S B) s a s1 :
  m s = (Ok a, s1) -> sm_bind m k s = k a s1.
Proof. intros H. unfold sm_bind. rewrite H. reflexivity. Qed.

Lemma sm_bind_err {S A B} (m : SM S A) (k : A -> SM S B) s e s1 :
  m s = (Err e, s1) -> sm_bind m k s = (Err e, s1).
Proof. intros H. unfold sm_bind. rewrite H. reflexivity. Qed.

(** X10: [make_api_request] posts exactly one [datastoreGet] request and
    writes no file; a body it returns is the server's, and always a
    mapping; a request error is re-raised unchanged (and logged when it is
    a [RequestException] or [JSONDecodeError]); a body that is not a
    mapping raises [AttributeError] from [data.get]. *)
Theorem api_request_outcomes : forall api tok s,
  w_net (x_base (snd (make_api_request api tok s)))
    = w_net (x_base s) ++ [NetPost datastore_get_url (api_payload tok)] /\
  x_files (snd (make_api_request api tok s)) = x_files s /\
  x_dir (snd (make_api_request api tok s)) = x_dir s /\
  (forall data, fst (make_api_request api tok s) = Ok data ->
     api (api_payload tok) = Ok data /\ exists fs, data = JObj fs) /\
  (forall e, api (api_payload tok) = Err e ->
     fst (make_api_request api tok s) = Err e /\
     (e = RequestException \/ e = JSONDecodeError ->
      In (XLogApiFailed e) (x_logs (snd (make_api_request api tok s))))) /\
  (forall v, api (api_payload tok) = Ok v -> (forall fs, v <> JObj fs) ->
     fst (make_api_request api tok s) = Err AttributeError).
Proof.
  intros api tok s.
  unfold make_api_request, sm_bind, sm_try, x_log, x_run, m_net, sm_lift, sm_ret, sm_raise.
  cbn [x_base x_logs x_files x_dir w_logs w_net fst snd].
  destruct (api (api_payload tok)) as [data|e] eqn:Ea.
  - destruct data as [| | | | |fs]; cbn [py_get fst snd x_base x_files x_dir w_net];
      try (split; [reflexivity|]; split; [reflexivity|]; split; [reflexivity|];
           split; [intros d Hd; discriminate Hd|];
           split; [intros e He; discriminate He|];
           intros v Hv _; reflexivity).
    destruct (py_len (match assoc "result" fs with Some x => x | None => JList [] end))
      as [n|e]; cbn [fst snd x_base x_files x_dir w_net].
    + split; [reflexivity|]. split; [reflexivity|]. split; [reflexivity|].
      split; [intros d Hd; injection Hd as <-; split; [reflexivity|eexists; reflexivity]|].
      split; [intros e He; discriminate He|].
      intros v Hv Hn. injection Hv as <-. exfalso. exact (Hn fs eq_refl).
    + destruct e; cbn [fst snd x_base x_files x_dir w_net];
      (split; [reflexivity|]; split; [reflexivity|]; split; [reflexivity|];
       split; [intros d Hd; discriminate Hd|];
       split; [intros e' He; discriminate He|];
       intros v Hv Hn; injection Hv as <-; exfalso; exact (Hn fs eq_refl)).
  - destruct e; cbn [fst snd x_base x_files x_dir w_net x_logs];
      (split; [reflexivity|]; split; [reflexivity|]; split; [reflexivity|];
       split; [intros d Hd; discriminate Hd|];
       split; [intros e' He; injection He as <-; split; [reflexivity|];
               intros [H|H]; try discriminate H; apply in_or_app; right; left; reflexivity|];
       intros v Hv; discriminate Hv).
Qed.

Definition api_answers_list : json -> Res json := fun _ => Ok (JList []).
Definition api_fails : json -> Res json := fun _ => Err RequestException.

Lemma api_request_outcomes_witness :
  fst (make_api_request api_fails (JStr "t") (mkX empty_world [] [] [])) = Err RequestException /\
  In (XLogApiFailed RequestException)
     (x_logs (snd (make_api_request api_fails (JStr "t") (mkX empty_world [] [] [])))) /\
  fst (make_api_request api_answers_list (JStr "t") (mkX empty_world [] [] [])) = Err AttributeError.
Proof.
  destruct (api_request_outcomes api_fails (JStr "t") (mkX empty_world [] [] []))
    as [_ [_ [_ [_ [Hf _]]]]].
  destruct (api_request_outcomes api_answers_list (JStr "t") (mkX empty_world [] [] []))
    as [_ [_ [_ [_ [_ Hl]]]]].
  destruct (Hf RequestException eq_refl) as [H1 H2].
  split; [exact H1|]. split; [apply H2; left; reflexivity|].
  apply (Hl (JList [])); [reflexivity|discriminate].
Defined.

Definition keeps_files {A} (m : XM A) : Prop :=
  forall s, x_files (snd (m s)) = x_files s /\ x_dir (snd (m s)) = x_dir s.

Lemma keeps_bind {A B} (m : XM A) (k : A -> XM B) :
  keeps_files m -> (forall a, keeps_files (k a)) -> keeps_files (sm_bind m k).
Proof.
  intros Hm Hk s. unfold sm_bind. specialize (Hm s).
  destruct (m s) as [[a|e] s1]; cbn [fst snd] in *; [|exact Hm].
  destruct (Hk a s1). destruct Hm. split; congruence.
Qed.

Lemma keeps_x_log l : keeps_files (x_log l).
Proof. intros s. split; reflexivity. Qed.

Lemma keeps_x_run {A} (m : M A) : keeps_files (x_run m).
Proof. intros s. unfold x_run. destruct (m (x_base s)). split; reflexivity. Qed.

Lemma keeps_lift {A} (r : Res A) : keeps_files (sm_lift r).
Proof. intros s. split; reflexivity. Qed.

Lemma keeps_ret {A} (a : A) : keeps_files (sm_ret a).
Proof. intros s. split; reflexivity. Qed.

Lemma keeps_raise {A} e : keeps_files (@sm_raise xworld A e).
Proof. intros s. split; reflexivity. Qed.

Lemma keeps_try {A} (m : XM A) h :
  keeps_files m -> (forall e, keeps_files (h e)) -> keeps_files (sm_try m h).
Proof.
  intros Hm Hh s. unfold sm_try. specialize (Hm s).
  destruct (m s) as [[a|e] s1]; cbn [fst snd] in *; [exact Hm|].
  destruct (Hh e s1). destruct Hm. split; congruence.
Qed.

Create HintDb keeps.
#[local] Hint Resolve keeps_bind keeps_x_log keeps_x_run keeps_lift keeps_ret keeps_raise
  keeps_try : keeps.

Lemma keeps_make_api_request api tok : keeps_files (make_api_request api tok).
Proof.
  unfold make_api_request. apply keeps_bind; [auto with keeps|intros _].
  apply keeps_try; [auto 10 with keeps|].
  intros e; destruct e; auto with keeps.
Qed.
#[local] Hint Resolve keeps_make_api_request : keeps.

Lemma keeps_export_fetch api auth : keeps_files (export_fetch api auth).
Proof. unfold export_fetch. auto 20 with keeps. Qed.

(** X11: when fetching fails (no token, a token that cannot be sliced, a
    failed request or a failing parse), [main] exits with 1 and has written
    no file; when the token cannot be obtained or sliced, no API request is
    made either. *)
Theorem exporter_fetch_failure : forall api cw cr auth mk ts s,
  (forall e, fst (export_fetch api auth s) = Err e ->
     exporter_main api cw cr auth mk ts s =
       (Ok 1%Z, mkX (x_base (snd (export_fetch api auth s)))
                    (x_logs (snd (export_fetch api auth s)) ++ [XLogFailed e])
                    (x_files s) (x_dir s))) /\
  (forall e, res_bind auth (fun k => py_slice k 0 20) = Err e ->
     exporter_main api cw cr auth mk ts s =
       (Ok 1%Z, mkX (mkWorld (w_logs (x_base s)) (w_net (x_base s) ++ [NetAuthExtraction]))
                    (x_logs s ++ [XLogExtracting; XLogFailed e]) (x_files s) (x_dir s))).
Proof.
  intros api cw cr auth mk ts s. split.
  - intros e He. destruct (keeps_export_fetch api auth s) as [Hf Hd].
    unfold exporter_main, sm_try, sm_bind at 1.
    destruct (export_fetch api auth s) as [r s1]. cbn [fst snd] in *. subst r.
    unfold x_log, sm_bind, sm_ret. cbn [x_base x_logs x_files x_dir]. rewrite Hf, Hd.
    reflexivity.
  - intros e He. unfold exporter_main, export_fetch, sm_try, sm_bind at 1.
    unfold sm_bind at 1, x_log at 1. unfold sm_bind at 1, x_run at 1, m_net.
    cbn [x_base x_logs x_files x_dir].
    unfold sm_bind at 1, sm_lift at 1.
    destruct auth as [k|e']; cbn [res_bind] in He.
    + unfold sm_bind at 1, sm_lift at 1. rewrite He.
      unfold x_log, sm_bind, sm_ret. cbn. rewrite <- app_assoc. reflexivity.
    + injection He as <-. unfold x_log, sm_bind, sm_ret. cbn. rewrite <- app_assoc.
      reflexivity.
Qed.

Lemma exporter_fetch_failure_witness :
  exporter_main api_fails (fun _ => true) (fun _ => true) (Ok (JNum 7)) true "20260101_000000"
    (mkX empty_world [] [] []) =
  (Ok 1%Z, mkX (mkWorld [] ([] ++ [NetAuthExtraction]))
               ([] ++ [XLogExtracting; XLogFailed TypeError]) [] []) /\
  fst (exporter_main api_fails (fun _ => true) (fun _ => true) (Ok (JStr "tok")) true "20260101_000000"
         (mkX empty_world [] [] [])) = Ok 1%Z.
Proof.
  split.
  - apply (proj2 (exporter_fetch_failure api_fails (fun _ => true) (fun _ => true) (Ok (JNum 7)) true
                    "20260101_000000" (mkX empty_world [] [] []))).
    reflexivity.
  - rewrite (proj1 (exporter_fetch_failure api_fails (fun _ => true) (fun _ => true) (Ok (JStr "tok")) true
                      "20260101_000000" (mkX empty_world [] [] [])) RequestException);
      reflexivity.
Defined.

(** Whether [save_to_csv] completes: an empty list is never written. *)
Definition csv_ok (cw : string -> bool) (items : list movie) (filename : string) : bool :=
  match items with [] => true | _ => cw filename end.

Lemma save_to_csv_ok : forall cw items name s,
  csv_ok cw items name = true -> exists s', save_to_csv cw items name s = (Ok tt, s').
Proof.
  intros cw items name s H. unfold save_to_csv, csv_ok in *.
  destruct items; [eexists; reflexivity|]. rewrite H. eexists. reflexivity.
Qed.

Lemma save_to_csv_err : forall cw items name s,
  csv_ok cw items name = false -> save_to_csv cw items name s = (Err OSError, s).
Proof.
  intros cw items name s H. unfold save_to_csv, csv_ok in *.
  destruct items; [discriminate H|]. rewrite H. reflexivity.
Qed.

Lemma generate_html_ok : forall cw wt wl p s,
  exists b s', generate_html cw wt wl p s = (Ok b, s').
Proof.
  intros. unfold generate_html. destruct (cw p); do 2 eexists; reflexivity.
Qed.

Lemma save_json_backup_ok : forall cw d n s,
  exists s', save_json_backup cw d n s = (Ok tt, s').
Proof. intros. unfold save_json_backup. destruct (cw n); eexists; reflexivity. Qed.

Lemma create_backup_zip_ok : forall cw cr ts s,
  exists z s', create_backup_zip cw cr ts s = (Ok z, s').
Proof.
  intros cw cr ts s. unfold create_backup_zip, sm_bind, x_create, x_dir_get, x_file, x_log, sm_ret.
  destruct (cw _); [|do 2 eexists; reflexivity]. cbn beta iota.
  destruct (zip_write_all _ _) as [ws [|]]; do 2 eexists; reflexivity.
Qed.

Ltac step_ok L :=
  match goal with
  | |- context [sm_bind ?m ?k ?s] =>
      let a := fresh "a" in let s' := fresh "s" in let E := fresh "E" in
      first [ destruct (L s) as [a [s' E]]
            | destruct (L s) as [s' E] ];
      rewrite (sm_bind_ok m k s _ _ E); cbv beta
  end.

Lemma export_write_res : forall cw cr mk ts d wt wl s,
  exists s', export_write cw cr mk ts d wt wl s =
    (if mk && csv_ok cw wt (watched_csv ts) && csv_ok cw wl (watchlist_csv ts)
     then Ok 0%Z else Err OSError, s').
Proof.
  intros cw cr mk ts d wt wl s. unfold export_write.
  destruct mk; cbn [andb]; [|eexists; reflexivity].
  rewrite (sm_bind_ok _ _ s tt s eq_refl).
  destruct (csv_ok cw wt (watched_csv ts)) eqn:H1; cbn [andb];
    [|rewrite (sm_bind_err _ _ s OSError s (save_to_csv_err _ _ _ s H1)); eexists; reflexivity].
  step_ok (fun s => save_to_csv_ok cw wt (watched_csv ts) s H1).
  destruct (csv_ok cw wl (watchlist_csv ts)) eqn:H2;
    [|rewrite (sm_bind_err _ _ _ OSError _ (save_to_csv_err _ _ _ _ H2)); eexists; reflexivity].
  step_ok (fun s => save_to_csv_ok cw wl (watchlist_csv ts) s H2).
  step_ok (generate_html_ok cw wt wl (html_file ts)).
  step_ok (save_json_backup_ok cw d "library_backup.json").
  step_ok (create_backup_zip_ok cw cr ts).
  eexists. reflexivity.
Qed.

(** X12: once fetching succeeded, the exit code is 0 exactly when the output
    directory can be created and each non-empty partition's CSV can be
    written; failures to write the HTML report, the JSON backup or the ZIP
    archive are only logged and never change the exit code. *)
Theorem exporter_exit_code : forall api cw cr auth mk ts s d wt wl,
  fst (export_fetch api auth s) = Ok (d, (wt, wl)) ->
  fst (exporter_main api cw cr auth mk ts s) =
    if mk && csv_ok cw wt (watched_csv ts) && csv_ok cw wl (watchlist_csv ts)
    then Ok 0%Z else Ok 1%Z.
Proof.
  intros api cw cr auth mk ts s d wt wl H.
  unfold exporter_main, sm_try, sm_bind at 1.
  destruct (export_fetch api auth s) as [r s1]. cbn [fst] in H. subst r. cbv beta.
  cbn [fst snd].
  destruct (export_write_res cw cr mk ts d wt wl s1) as [s2 E]. rewrite E.
  destruct (_ && _); reflexivity.
Qed.

Definition one_movie : list json :=
  [JObj [("_id", JStr "tt1"); ("name", JStr "A"); ("state", JObj [("timesWatched", JNum 1)])]].

Definition api_one_movie : json -> Res json := fun _ => Ok (library one_movie).

(** Only the HTML report and the archive cannot be written. *)
Definition report_unwritable (name : string) : bool :=
  negb (String.eqb name "stremio_library_20260101_000000.html" ||
        String.eqb name "stremio_library_backup_20260101_000000.zip").

Lemma exporter_exit_code_witness :
  fst (exporter_main api_one_movie report_unwritable (fun _ => true) (Ok (JStr "tok")) true "20260101_000000"
         (mkX empty_world [] [] [])) = Ok 0%Z.
Proof.
  rewrite (exporter_exit_code api_one_movie report_unwritable (fun _ => true) (Ok (JStr "tok")) true
             "20260101_000000" (mkX empty_world [] [] []) (library one_movie)
             [canonical "tt1" "A"] []); reflexivity.
Defined.

(** ** Exporter: the archive *)

Definition zip_name (ts : string) : string := ("stremio_library_backup_" ++ ts ++ ".zip")%string.
Definition raw_backup_name (ts : string) : string := ("library_backup_" ++ ts ++ ".json")%string.

Lemma in_dir_add : forall n m dir, In m dir -> In m (dir_add n dir).
Proof.
  intros n m dir H. unfold dir_add. destruct (existsb _ _); [exact H|].
  apply in_or_app. left. exact H.
Qed.

Lemma in_dir_add_self : forall n dir, In n (dir_add n dir).
Proof.
  intros n dir. unfold dir_add. destruct (existsb (String.eqb n) dir) eqn:E.
  - apply existsb_exists in E. destruct E as [m [Hm Heq]].
    apply String.eqb_eq in Heq. subst m. exact Hm.
  - apply in_or_app. right. left. reflexivity.
Qed.

Definition zip_members (ts : string) (dir : list string) : list string :=
  filter (fun n => negb (String.eqb (path_suffix n) ".zip"))
    (filter (fun n => str_contains ts n) dir) ++
  (if existsb (String.eqb "library_backup.json") dir then [raw_backup_name ts] else []).

(** The [(path, arcname)] pairs [create_backup_zip] hands to [zipf.write]. *)
Definition zip_entries (ts : string) (dir : list string) : list (string * string) :=
  map (fun n => (n, n))
    (filter (fun n => negb (String.eqb (path_suffix n) ".zip"))
       (filter (fun n => str_contains ts n) dir)) ++
  (if existsb (String.eqb "library_backup.json") dir
   then [("library_backup.json", raw_backup_name ts)] else []).

Lemma map_snd_zip_entries : forall ts dir, map snd (zip_entries ts dir) = zip_members ts dir.
Proof.
  intros ts dir. unfold zip_entries, zip_members. rewrite map_app, map_map. cbn [snd].
  rewrite map_id. f_equal. destruct (existsb _ _); reflexivity.
Qed.




Lemma zip_write_all_readable : forall cr es,
  (forall n, cr n = true) -> zip_write_all cr es = (map snd es, true).
Proof.
  intros cr es Hr. induction es as [|[p a] es IH]; [reflexivity|].
  cbn [zip_write_all map snd]. rewrite Hr, IH. reflexivity.
Qed.

Lemma create_backup_zip_eq : forall cw cr ts s,
  create_backup_zip cw cr ts s =
  if cw (zip_name ts) then
    let d := dir_add (zip_name ts) (x_dir s) in
    let r := zip_write_all cr (zip_entries ts d) in
    (Ok (if snd r then Some (zip_name ts) else None),
     mkX (x_base s)
         (x_logs s ++ [if snd r then XLogZipCreated (zip_name ts) else XLogZipFailed])
         (x_files s ++ [WriteZip (zip_name ts) (fst r)]) d)
  else (Ok None, mkX (x_base s) (x_logs s ++ [XLogZipFailed]) (x_files s) (x_dir s)).
Proof.
  intros cw cr ts s. unfold create_backup_zip. fold (zip_name ts).
  destruct (cw (zip_name ts)); [|reflexivity].
  unfold sm_bind, x_create, x_dir_get, x_file, x_log, sm_ret. cbn [x_base x_logs x_files x_dir].
  unfold zip_entries, raw_backup_name. cbv zeta.
  destruct (zip_write_all _ _) as [ws [|]]; reflexivity.
Qed.

Lemma existsb_in_string : forall n dir, In n dir -> existsb (String.eqb n) dir = true.
Proof.
  intros n dir H. apply existsb_exists. exists n. split; [exact H|apply String.eqb_refl].
Qed.








(** The run from [s] to [s'] appended file events, none a JSON backup,
    and kept every name of [output/]. *)
Definition grows (s s' : xworld) : Prop :=
  exists added, x_files s' = x_files s ++ added /\
    (forall f v, ~ In (WriteJson f v) added) /\ incl (x_dir s) (x_dir s').

Lemma grows_refl : forall s, grows s s.
Proof.
  intros s. exists []. rewrite app_nil_r. split; [reflexivity|].
  split; [intros f v []|apply incl_refl].
Qed.

Lemma grows_trans : forall s1 s2 s3, grows s1 s2 -> grows s2 s3 -> grows s1 s3.
Proof.
  intros s1 s2 s3 [a1 [H1 [J1 K1]]] [a2 [H2 [J2 K2]]]. exists (a1 ++ a2).
  split; [rewrite H2, H1, app_assoc; reflexivity|].
  split; [intros f v Hin; apply in_app_or in Hin; destruct Hin; [eapply J1|eapply J2]; eauto|].
  eapply incl_tran; eauto.
Qed.

Lemma save_to_csv_grows : forall cw items name s,
  csv_ok cw items name = true ->
  exists s', save_to_csv cw items name s = (Ok tt, s') /\ grows s s'.
Proof.
  intros cw items name s H. unfold save_to_csv, csv_ok in *.
  destruct items as [|it items].
  { eexists. split; [reflexivity|]. exists []. cbn. rewrite app_nil_r.
    split; [reflexivity|]. split; [intros f v []|apply incl_refl]. }
  rewrite H. eexists. split; [reflexivity|].
  exists [WriteCsv name csv_fieldnames (map csv_row (it :: items))]. cbn.
  split; [reflexivity|]. split; [intros f v [Hv|[]]; discriminate Hv|].
  intros m Hm. apply in_dir_add. exact Hm.
Qed.

Lemma generate_html_grows : forall cw wt wl p s,
  exists b s', generate_html cw wt wl p s = (Ok b, s') /\ grows s s'.
Proof.
  intros cw wt wl p s. unfold generate_html. destruct (cw p).
  - do 2 eexists. split; [reflexivity|]. exists [WriteHtml p wt wl]. cbn.
    split; [reflexivity|]. split; [intros f v [Hv|[]]; discriminate Hv|].
    intros m Hm. apply in_dir_add. exact Hm.
  - do 2 eexists. split; [reflexivity|]. exists []. cbn. rewrite app_nil_r.
    split; [reflexivity|]. split; [intros f v []|apply incl_refl].
Qed.

(** X14: the archive can hold a stale raw backup: when this run cannot write
    [library_backup.json] but a file of that name is left in [output/] from
    an earlier run and can still be read (a read-only file, say), as can the
    other files of [output/], [main] still exits with 0 and the archive
    contains that old file under this run's timestamped name, while no JSON
    backup was written by the run. *)
Theorem stale_backup_archived : forall api cw cr auth ts s d wt wl,
  fst (export_fetch api auth s) = Ok (d, (wt, wl)) ->
  csv_ok cw wt (watched_csv ts) = true -> csv_ok cw wl (watchlist_csv ts) = true ->
  cw "library_backup.json" = false -> cw (zip_name ts) = true ->
  (forall n, cr n = true) ->
  In "library_backup.json" (x_dir s) ->
  exists s' added members,
    exporter_main api cw cr auth true ts s = (Ok 0%Z, s') /\
    x_files s' = x_files s ++ added /\
    In (WriteZip (zip_name ts) members) added /\ In (raw_backup_name ts) members /\
    (forall f v, ~ In (WriteJson f v) added).
Proof.
  intros api cw cr auth ts s d wt wl Hf H1 H2 Hj Hz Hr Hl.
  destruct (keeps_export_fetch api auth s) as [Kf Kd].
  unfold exporter_main, sm_try, sm_bind at 1.
  destruct (export_fetch api auth s) as [r s1]. cbn [fst snd] in *. subst r. cbv beta.
  cbn [fst snd].
  assert (G1 : grows s s1).
  { exists []. rewrite app_nil_r. split; [exact Kf|]. split; [intros f v []|].
    rewrite Kd. apply incl_refl. }
  unfold export_write. rewrite (sm_bind_ok _ _ s1 tt s1 eq_refl).
  destruct (save_to_csv_grows cw wt (watched_csv ts) s1 H1) as [s2 [E2 G2]].
  rewrite (sm_bind_ok _ _ _ _ _ E2).
  destruct (save_to_csv_grows cw wl (watchlist_csv ts) s2 H2) as [s3 [E3 G3]].
  rewrite (sm_bind_ok _ _ _ _ _ E3).
  destruct (generate_html_grows cw wt wl (html_file ts) s3) as [b [s4 [E4 G4]]].
  rewrite (sm_bind_ok _ _ _ _ _ E4).
  assert (E5 : save_json_backup cw d "library_backup.json" s4 =
               (Ok tt, mkX (x_base s4) (x_logs s4 ++ [XLogJsonFailed]) (x_files s4) (x_dir s4)))
    by (unfold save_json_backup; rewrite Hj; reflexivity).
  rewrite (sm_bind_ok _ _ _ _ _ E5).
  assert (E6 : create_backup_zip cw cr ts
                 (mkX (x_base s4) (x_logs s4 ++ [XLogJsonFailed]) (x_files s4) (x_dir s4)) =
               (Ok (Some (zip_name ts)),
                mkX (x_base s4) ((x_logs s4 ++ [XLogJsonFailed]) ++ [XLogZipCreated (zip_name ts)])
                    (x_files s4 ++ [WriteZip (zip_name ts)
                                      (zip_members ts (dir_add (zip_name ts) (x_dir s4)))])
                    (dir_add (zip_name ts) (x_dir s4))))
    by (rewrite create_backup_zip_eq, Hz; cbv zeta;
        rewrite zip_write_all_readable, map_snd_zip_entries by exact Hr; reflexivity).
  rewrite (sm_bind_ok _ _ _ _ _ E6).
  assert (G : grows s s4) by (eapply grows_trans; [eapply grows_trans; [eapply grows_trans|]|]; eauto).
  destruct G as [added [Ha [Hn Hi]]].
  eexists.
  exists (added ++ [WriteZip (zip_name ts) (zip_members ts (dir_add (zip_name ts) (x_dir s4)));
                    OpenBrowser (html_file ts)]).
  exists (zip_members ts (dir_add (zip_name ts) (x_dir s4))).
  split; [reflexivity|]. cbn [x_files].
  split; [rewrite Ha, <- !app_assoc; reflexivity|].
  split; [apply in_or_app; right; left; reflexivity|].
  split.
  - unfold zip_members. apply in_or_app. right.
    rewrite (existsb_in_string _ _ (in_dir_add _ _ _ (Hi _ Hl))). left. reflexivity.
  - intros f v Hin. apply in_app_or in Hin. destruct Hin as [Hin|[Hv|[Hv|[]]]];
      [exact (Hn f v Hin)|discriminate Hv|discriminate Hv].
Qed.

Definition json_unwritable (name : string) : bool := negb (String.eqb name "library_backup.json").

Lemma stale_backup_archived_witness :
  exists s' added members,
    exporter_main api_one_movie json_unwritable (fun _ => true) (Ok (JStr "tok")) true "20260101_000000"
      (mkX empty_world [] [] ["library_backup.json"]) = (Ok 0%Z, s') /\
    x_files s' = [] ++ added /\
    In (WriteZip (zip_name "20260101_000000") members) added /\
    In (raw_backup_name "20260101_000000") members /\
    (forall f v, ~ In (WriteJson f v) added).
Proof.
  apply (stale_backup_archived api_one_movie json_unwritable (fun _ => true) (Ok (JStr "tok")) "20260101_000000"
           (mkX empty_world [] [] ["library_backup.json"]) (library one_movie)
           [canonical "tt1" "A"] []); try reflexivity.
  left. reflexivity.
Defined.

(** ** Login flow *)

(** The [(selector, value)] pairs typed into the page, in order. *)
Definition fills (t : list page_event) : list (string * string) :=
  flat_map (fun ev => match ev with PageOp (PFill s v) => [(s, v)] | _ => [] end) t.

Ltac page_cases pg :=
  repeat match goal with
         | |- context [pg ?t ?o] => let b := fresh "b" in destruct (pg t o) as [b|]
         | |- context [if ?b then _ else _] => is_var b; destruct b
         end.

(** X15: the login flow types into the page only the e-mail, into the
    e-mail field, and then the password, into the password field (or a
    prefix of that, when a step fails); it types anything only after the
    "Log in" element was found, i.e. never when already logged in. *)
Theorem credentials_typed_only_on_login : forall page email password t0,
  exists added,
    snd (_navigate_and_login page email password t0) = t0 ++ added /\
    In (fills added) [[]; [(sel_email, email)]; [(sel_email, email); (sel_password, password)]] /\
    (fills added <> [] -> In (PageLog LLoginRequired) added).
Proof.
  intros page email password t0.
  unfold _navigate_and_login, _perform_login, _fill_credentials, hidden_wait,
    p_bind, p_op, p_log, p_ret, p_try.
  page_cases page; cbn [snd];
  (eexists; split; [rewrite <- !app_assoc; reflexivity|];
   cbn; split; [tauto|]; intros Hf; first [exfalso; exact (Hf eq_refl) | tauto]).
Qed.

(** Every page call of [added], made after the events [t], succeeded,
    except possibly the wait for the login form to disappear. *)
Fixpoint calls_ok (page : list page_event -> page_op -> PRes bool)
    (t added : list page_event) : Prop :=
  match added with
  | [] => True
  | PageOp o :: rest =>
      (o <> hidden_wait -> exists b, page t o = POk b) /\ calls_ok page (t ++ [PageOp o]) rest
  | PageLog l :: rest => calls_ok page (t ++ [PageLog l]) rest
  end.

(** X16: waiting for the login form to disappear is the one step whose
    failure is tolerated, with a warning: if every other page call
    succeeds, [_perform_login] completes, the hidden-form wait being
    followed by the warning [LFormMaybeVisible] when it failed (by
    [LFormDisappeared] otherwise) and then by the wait for the
    [networkidle] load state, its last call. Any other failing call ends
    the login with its error, right after that call; a completed login
    had every other call succeed. *)
Theorem hidden_wait_tolerated : forall page email password t0,
  ((forall t o, o <> hidden_wait -> exists b, page t o = POk b) ->
   exists t',
     _perform_login page email password t0 =
       (POk tt, t' ++ [PageOp hidden_wait;
                       PageLog (match page t' hidden_wait with
                                | POk _ => LFormDisappeared
                                | PErr _ => LFormMaybeVisible
                                end);
                       PageOp (PWaitLoadState "networkidle")])) /\
  (forall e, fst (_perform_login page email password t0) = PErr e ->
     exists t' o, snd (_perform_login page email password t0) = t' ++ [PageOp o] /\
       o <> hidden_wait /\ page t' o = PErr e) /\
  (fst (_perform_login page email password t0) = POk tt ->
     exists added, snd (_perform_login page email password t0) = t0 ++ added /\
       calls_ok page t0 added).
Proof.
  intros page email password t0. split; [|split].
  - intros H.
    unfold _perform_login, _fill_credentials, p_bind, p_op, p_log, p_ret, p_try.
    repeat match goal with
           | |- context [page ?t ?o] =>
               match o with
               | hidden_wait =>
                   let E := fresh "E" in
                   destruct (page t o) eqn:E; exists t; rewrite E
               | _ => let b := fresh "b" in let Hb := fresh "Hb" in
                      destruct (H t o ltac:(unfold hidden_wait; discriminate)) as [b Hb];
                      rewrite Hb
               end
           end;
    rewrite <- !app_assoc; reflexivity.
  - intros e.
    unfold _perform_login, _fill_credentials, p_bind, p_op, p_log, p_ret, p_try.
    repeat match goal with
           | |- context [page ?t ?o] =>
               let E := fresh "E" in destruct (page t o) eqn:E
           end;
    cbn [fst snd]; intros He; try discriminate He; injection He as <-;
    match goal with
    | |- exists t' o, ?t ++ [PageOp ?o0] = _ /\ _ =>
        exists t, o0; split; [reflexivity|];
        split; [unfold hidden_wait; discriminate|assumption]
    end.
  - unfold _perform_login, _fill_credentials, p_bind, p_op, p_log, p_ret, p_try.
    repeat match goal with
           | |- context [page ?t ?o] =>
               let E := fresh "E" in destruct (page t o) eqn:E
           end;
    cbn [fst snd]; intros He; try discriminate He;
    eexists; (split; [rewrite <- !app_assoc; reflexivity|]);
    cbn [calls_ok app];
    repeat split;
    try (intros Hne; first [eexists; eassumption | exfalso; apply Hne; reflexivity]).
Qed.

Definition is_hidden_wait (o : page_op) : bool :=
  match o with
  | PWaitSelector s (Some st) (Some n) =>
      String.eqb s sel_login_button && String.eqb st "hidden" && N.eqb n 10000
  | _ => false
  end.

Lemma is_hidden_wait_spec : forall o, is_hidden_wait o = true -> o = hidden_wait.
Proof.
  intros o H. destruct o as [| s [st|] [n|] | | | | |]; try discriminate H.
  cbn in H. apply andb_prop in H. destruct H as [H H3]. apply andb_prop in H.
  destruct H as [H1 H2]. apply String.eqb_eq in H1, H2. apply N.eqb_eq in H3.
  subst. reflexivity.
Qed.

(** A page on which the login form never disappears. *)
Definition login_form_stays (t : list page_event) (o : page_op) : PRes bool :=
  if is_hidden_wait o then PErr PwTimeoutError else POk true.

Lemma hidden_wait_tolerated_witness :
  exists t', _perform_login login_form_stays "a@b.c" "pw" [] =
               (POk tt, t' ++ [PageOp hidden_wait; PageLog LFormMaybeVisible;
                               PageOp (PWaitLoadState "networkidle")]).
Proof.
  destruct (proj1 (hidden_wait_tolerated login_form_stays "a@b.c" "pw" [])) as [t' Ht].
  - intros t o Ho. unfold login_form_stays.
    destruct (is_hidden_wait o) eqn:E.
    + exfalso. exact (Ho (is_hidden_wait_spec o E)).
    + exists true. reflexivity.
  - exists t'. rewrite Ht. reflexivity.
Defined.

(** ** Report cards *)

Lemma string_app_assoc : forall a b c : string,
  ((a ++ b) ++ c)%string = (a ++ (b ++ c))%string.
Proof. induction a as [|x a IH]; intros b c; simpl; [reflexivity|]. rewrite IH. reflexivity. Qed.

Lemma prefix_refl : forall p, String.prefix p p = true.
Proof.
  induction p as [|x p IH]; simpl; [reflexivity|].
  destruct (ascii_dec x x); [exact IH|contradiction].
Qed.

Lemma prefix_app_mono : forall p x y, String.prefix p x = true -> String.prefix p (x ++ y) = true.
Proof.
  induction p as [|c p IH]; intros x y H; [destruct (x ++ y)%string; reflexivity|].
  destruct x as [|d x]; [discriminate H|]. simpl in *.
  destruct (ascii_dec c d); [apply IH; exact H|discriminate H].
Qed.

Lemma str_contains_app_l : forall p a b,
  str_contains p a = true -> str_contains p (a ++ b) = true.
Proof.
  intros p a b. induction a as [|c a IH]; intros H.
  - cbn [str_contains] in H. rewrite orb_false_r in H.
    pose proof (prefix_app_mono p "" b H) as Hp. cbn [append] in Hp |- *.
    destruct b as [|d b]; cbn [str_contains]; rewrite Hp; reflexivity.
  - cbn [str_contains] in H |- *. apply orb_true_iff in H. apply orb_true_iff.
    destruct H as [H|H].
    + left. exact (prefix_app_mono p (String c a) b H).
    + right. exact (IH H).
Qed.

Lemma str_contains_app_r : forall p a b,
  str_contains p b = true -> str_contains p (a ++ b) = true.
Proof.
  intros p a b H. induction a as [|c a IH]; [exact H|].
  cbn [str_contains append]. rewrite IH. apply orb_true_r.
Qed.

Lemma str_contains_self : forall p b, str_contains p (p ++ b) = true.
Proof.
  intros p b. destruct p as [|c p].
  - destruct b; reflexivity.
  - pose proof (prefix_app_mono _ _ b (prefix_refl (String c p))) as Hp.
    cbn [append] in Hp |- *. cbn [str_contains]. rewrite Hp. reflexivity.
Qed.

Definition data_title_attr (t : string) : string := (" data-title=" ++ dq ++ t ++ dq)%string.

Lemma grid_card_title : forall py_str p t y i ty,
  str_contains (data_title_attr (py_str t)) (grid_card py_str p t y i ty) = true.
Proof.
  intros. unfold grid_card, data_title_attr.
  set (rest := (">" ++ nl ++ _)%string).
  replace (" data-title=" ++ dq ++ py_str t ++ dq ++ rest)%string
    with ((" data-title=" ++ dq ++ py_str t ++ dq) ++ rest)%string
    by (rewrite !string_app_assoc; reflexivity).
  apply str_contains_app_r. apply str_contains_app_r. apply str_contains_app_r.
  apply str_contains_app_r. apply str_contains_app_r. apply str_contains_self.
Qed.

Lemma grid_loop_contains : forall py_str items acc html fs,
  grid_loop py_str items acc = Ok html -> In (JObj fs) items ->
  str_contains (data_title_attr (py_str (get_or "Title" fs (JStr "Unknown")))) html = true.
Proof.
  intros py_str items. induction items as [|it items IH]; intros acc html fs H Hin;
    [destruct Hin|].
  assert (Hacc : forall l a h, grid_loop py_str l a = Ok h ->
                   exists r, h = (a ++ r)%string).
  { clear. induction l as [|x l IHl]; intros a h H.
    - injection H as <-. exists "". clear. induction a as [|c a IH]; [reflexivity|].
      simpl. rewrite <- IH. reflexivity.
    - cbn [grid_loop] in H.
      destruct x as [| | | | |xs]; cbn [py_get res_bind] in H; try discriminate H.
      destruct (IHl _ _ H) as [r ->]. eexists. apply string_app_assoc. }
  cbn [grid_loop] in H.
  destruct Hin as [Heq|Hin].
  - subst it. cbn [py_get res_bind] in H. destruct (Hacc _ _ _ H) as [r ->].
    apply str_contains_app_l. apply str_contains_app_r. unfold get_or.
    apply grid_card_title.
  - destruct it as [| | | | |xs]; cbn [py_get res_bind] in H; try discriminate H.
    exact (IH _ _ _ H Hin).
Qed.

(** X17: [_generate_grid_items] inserts each item's title into its card
    without any HTML escaping: for an item whose [Title] is the string [t],
    the output contains [data-title="t"] with [t] verbatim (so a quote in a
    title ends the attribute); an item without [Title] shows [Unknown]. *)
Theorem title_inserted_verbatim : forall py_str,
  (forall s, py_str (JStr s) = s) ->
  forall items html fs, _generate_grid_items py_str items = Ok html -> In (JObj fs) items ->
  (forall t, assoc "Title" fs = Some (JStr t) ->
     str_contains (" data-title=" ++ dq ++ t ++ dq)%string html = true) /\
  (assoc "Title" fs = None ->
     str_contains (" data-title=" ++ dq ++ "Unknown" ++ dq)%string html = true).
Proof.
  intros py_str Hs items html fs H Hin.
  pose proof (grid_loop_contains py_str items "" html fs H Hin) as Hc.
  unfold data_title_attr, get_or in Hc. split.
  - intros t Ht. rewrite Ht, Hs in Hc. exact Hc.
  - intros Ht. rewrite Ht, Hs in Hc. exact Hc.
Qed.

Definition str_of_strings (v : json) : string := match v with JStr s => s | _ => "" end.

Definition quoted_title : string := ("Say " ++ dq ++ "Hi" ++ dq)%string.

Lemma title_inserted_verbatim_witness :
  str_contains (" data-title=" ++ dq ++ quoted_title ++ dq)%string
    (match _generate_grid_items str_of_strings [JObj [("Title", JStr quoted_title)]] with
     | Ok h => h | Err _ => "" end) = true.
Proof.
  apply (proj1 (title_inserted_verbatim str_of_strings (fun s => eq_refl)
                  [JObj [("Title", JStr quoted_title)]] _ [("Title", JStr quoted_title)]
                  eq_refl (or_introl eq_refl))).
  reflexivity.
Defined.

(** ** Importer: a mapping of items *)

(** X18: a backup whose [result] is a non-empty mapping passes loading and
    the login, but [restore_library] then raises at the first slice
    ([DictSliceError]: [TypeError] up to Python 3.11, [KeyError] from 3.12),
    before any write is posted, and the importer exits with 1. *)
Theorem mapping_items_abort : forall net tok fs w,
  fs <> [] ->
  restore_library net tok (JObj fs) w =
    (Err DictSliceError, mkWorld (w_logs w ++ [LogStartRestore (length fs)]) (w_net w)) /\
  importer_main net (Ok tok) true (FileParsed (JObj [("result", JObj fs)])) w =
    (Ok 1%Z, mkWorld (w_logs w ++ [LogLoading; LogLoaded (length fs); LogAuthOk;
                                   LogStartRestore (length fs); LogRestoreFailed DictSliceError])
                     (w_net w ++ [NetAuthExtraction])).
Proof.
  intros net tok fs w Hfs.
  assert (Hr : forall w0, restore_library net tok (JObj fs) w0 =
    (Err DictSliceError, mkWorld (w_logs w0 ++ [LogStartRestore (length fs)]) (w_net w0))).
  { intros w0. destruct fs as [|kv fs']; [contradiction|].
    unfold restore_library, m_bind, m_lift, m_log. cbn [py_len length].
    unfold py_range. rewrite Nat.sub_0_r. cbn [range_go Nat.ltb Nat.leb].
    reflexivity. }
  split; [apply Hr|].
  unfold importer_main, m_try, m_bind, m_log, m_lift, m_net, m_ret.
  cbn -[restore_library]. rewrite Hr. cbn. rewrite <- !app_assoc. reflexivity.
Qed.

Lemma mapping_items_abort_witness :
  restore_library always_ok "tok" (JObj [("a", JNull)]) empty_world =
    (Err DictSliceError, mkWorld ([] ++ [LogStartRestore 1]) []) /\
  importer_main always_ok (Ok "tok") true (FileParsed (JObj [("result", JObj [("a", JNull)])]))
    empty_world =
    (Ok 1%Z, mkWorld ([] ++ [LogLoading; LogLoaded 1; LogAuthOk; LogStartRestore 1;
                             LogRestoreFailed DictSliceError]) ([] ++ [NetAuthExtraction])).
Proof. apply (mapping_items_abort always_ok "tok" [("a", JNull)] empty_world). discriminate. Defined.
